(** * A shallow embedding of the 6502 core of nes-rs ([nes-core/src/cpu.rs])

    Bytes ([u8]) and words ([u16]) are [Z]s; wrapping arithmetic is written
    out with [mod].  The memory is the array [[u8; 0xFFFF]]: a total function
    on indices together with its length, indexing outside it panics.
    A panic (array index out of bounds, [panic!], [todo!], [unwrap] of an
    error, overflow of a plain [+] in a debug build) is [None] in the option
    monad below. *)

From Stdlib Require Import ZArith Bool List Lia.
Import ListNotations.
Open Scope Z_scope.

(** ** Option monad: [None] is a panic *)

Definition bind {A B} (m : option A) (f : A -> option B) : option B :=
  match m with Some a => f a | None => None end.

Notation "x <- m ;; f" := (bind m (fun x => f))
  (at level 61, m at next level, right associativity).

(** ** Integer helpers *)

(** [a.wrapping_add(b)] / [a.wrapping_sub(b)] on [u8] and [u16]. *)
Definition wrapping_add8 (a b : Z) : Z := (a + b) mod 256.
Definition wrapping_sub8 (a b : Z) : Z := (a - b) mod 256.
Definition wrapping_add16 (a b : Z) : Z := (a + b) mod 65536.

(** [a + b] and [a - b] on [u16] in a debug build: panics on overflow. *)
Definition checked_add16 (a b : Z) : option Z :=
  if a + b <=? 65535 then Some (a + b) else None.
Definition checked_sub16 (a b : Z) : option Z :=
  if 0 <=? a - b then Some (a - b) else None.

(** [BitField::get_bit] and [BitField::set_bit]. *)
Definition get_bit (v i : Z) : bool := Z.testbit v i.
Definition set_bit (v i : Z) (b : bool) : Z :=
  if b then Z.setbit v i else Z.clearbit v i.

(** [u8 as i8]. *)
Definition as_i8 (v : Z) : Z := if v <? 128 then v else v - 256.
(** Two's-complement wrap into the [i8] range. *)
Definition wrap_i8 (z : Z) : Z := (z + 128) mod 256 - 128.
(** [i8::wrapping_neg], [i8::wrapping_sub]. *)
Definition i8_wrapping_neg (x : Z) : Z := wrap_i8 (- x).
Definition i8_wrapping_sub (x y : Z) : Z := wrap_i8 (x - y).
(** [i8 as u8] and [i8 as u16] (sign extension). *)
Definition i8_as_u8 (x : Z) : Z := x mod 256.
Definition i8_as_u16 (x : Z) : Z := x mod 65536.

(** ** Data model *)

Inductive AddressingMode :=
| Immediate
| ZeroPage
| ZeroPage_X
| ZeroPage_Y
| Absolute
| Absolute_X
| Absolute_Y
| Indirect_X
| Indirect_Y
| NoneAddressing.

Record CPU := mkCPU {
  pc : Z;
  reg_a : Z;
  sp : Z;
  index_reg_x : Z;
  index_reg_y : Z;
  status : Z;
  memory : Z -> Z
}.

(** Length of the array [memory: [u8; 0xFFFF]]. *)
Definition MEMORY_LEN : Z := 0xFFFF.

Definition NEGATIVE_BIT : Z := 7.
Definition MSB : Z := 7.

Definition STATUS_BIT_N : Z := 7.
Definition STATUS_BIT_V : Z := 6.
Definition STATUS_BIT_D : Z := 3.
Definition STATUS_BIT_I : Z := 2.
Definition STATUS_BIT_Z : Z := 1.
Definition STATUS_BIT_C : Z := 0.

Definition STACK_RESET : Z := 0xfd.
Definition STACK_BASE : Z := 0x100.

(** Field assignments [self.f = v]. *)
Definition set_pc (s : CPU) (v : Z) : CPU :=
  mkCPU v (reg_a s) (sp s) (index_reg_x s) (index_reg_y s) (status s) (memory s).
Definition set_reg_a (s : CPU) (v : Z) : CPU :=
  mkCPU (pc s) v (sp s) (index_reg_x s) (index_reg_y s) (status s) (memory s).
Definition set_sp (s : CPU) (v : Z) : CPU :=
  mkCPU (pc s) (reg_a s) v (index_reg_x s) (index_reg_y s) (status s) (memory s).
Definition set_index_reg_x (s : CPU) (v : Z) : CPU :=
  mkCPU (pc s) (reg_a s) (sp s) v (index_reg_y s) (status s) (memory s).
Definition set_index_reg_y (s : CPU) (v : Z) : CPU :=
  mkCPU (pc s) (reg_a s) (sp s) (index_reg_x s) v (status s) (memory s).
Definition set_status (s : CPU) (v : Z) : CPU :=
  mkCPU (pc s) (reg_a s) (sp s) (index_reg_x s) (index_reg_y s) v (memory s).
Definition set_memory (s : CPU) (m : Z -> Z) : CPU :=
  mkCPU (pc s) (reg_a s) (sp s) (index_reg_x s) (index_reg_y s) (status s) m.

(** [self.status.set_bit(i, b)]. *)
Definition set_status_bit (s : CPU) (i : Z) (b : bool) : CPU :=
  set_status s (set_bit (status s) i b).

(** ** Memory access *)

Definition mem_read (s : CPU) (addr : Z) : option Z :=
  if addr <? MEMORY_LEN then Some (memory s addr) else None.

Definition mem_read_u16 (s : CPU) (addr : Z) : option Z :=
  lo <- mem_read s addr ;;
  a1 <- checked_add16 addr 1 ;;
  hi <- mem_read s a1 ;;
  Some (Z.lor (Z.shiftl hi 8) lo).

Definition mem_write (s : CPU) (addr data : Z) : option CPU :=
  if addr <? MEMORY_LEN
  then Some (set_memory s (fun a => if a =? addr then data else memory s a))
  else None.

Definition mem_write_u16 (s : CPU) (addr data : Z) : option CPU :=
  let lo := Z.land data 0xFF in
  let hi := Z.land (Z.shiftr data 8) 0xFF in
  s1 <- mem_write s addr lo ;;
  a1 <- checked_add16 addr 1 ;;
  mem_write s1 a1 hi.

Definition new : CPU :=
  mkCPU 0 0 STACK_RESET 0 0 0 (fun _ => 0).

Definition reset (s : CPU) : option CPU :=
  let s1 := set_sp (set_status (set_index_reg_x (set_reg_a s 0) 0) 0) STACK_RESET in
  v <- mem_read_u16 s1 0xFFFC ;;
  Some (set_pc s1 v).

(** ** Stack *)

Definition stack_pop (s : CPU) : option (CPU * Z) :=
  let s1 := set_sp s (wrapping_add8 (sp s) 1) in
  v <- mem_read s1 (STACK_BASE + sp s1) ;;
  Some (s1, v).

Definition stack_pop_u16 (s : CPU) : option (CPU * Z) :=
  r1 <- stack_pop s ;;
  let '(s1, lo) := r1 in
  r2 <- stack_pop s1 ;;
  let '(s2, hi) := r2 in
  Some (s2, Z.lor (Z.shiftl hi 8) lo).

Definition stack_push (s : CPU) (data : Z) : option CPU :=
  s1 <- mem_write s (STACK_BASE + sp s) data ;;
  Some (set_sp s1 (wrapping_sub8 (sp s1) 1)).

Definition stack_push_u16 (s : CPU) (data : Z) : option CPU :=
  let hi := Z.shiftr (Z.land data 0xFF00) 8 in
  let lo := Z.land data 0x00FF in
  s1 <- stack_push s hi ;;
  stack_push s1 lo.

(** ** Addressing modes *)

Definition get_operand_address (s : CPU) (mode : AddressingMode) : option Z :=
  match mode with
  | Immediate => Some (pc s)
  | ZeroPage => mem_read s (pc s)
  | Absolute => mem_read_u16 s (pc s)
  | ZeroPage_X =>
      pos <- mem_read s (pc s) ;;
      Some (wrapping_add8 pos (index_reg_x s))
  | ZeroPage_Y =>
      pos <- mem_read s (pc s) ;;
      Some (wrapping_add8 pos (index_reg_y s))
  | Absolute_X =>
      pos <- mem_read_u16 s (pc s) ;;
      Some (wrapping_add16 pos (index_reg_x s))
  | Absolute_Y =>
      pos <- mem_read_u16 s (pc s) ;;
      Some (wrapping_add16 pos (index_reg_y s))
  | Indirect_X =>
      base <- mem_read s (pc s) ;;
      let ptr := wrapping_add8 base (index_reg_x s) in
      lo <- mem_read s ptr ;;
      hi <- mem_read s (wrapping_add8 ptr 1) ;;
      Some (Z.lor (Z.shiftl hi 8) lo)
  | Indirect_Y =>
      base <- mem_read s (pc s) ;;
      lo <- mem_read s base ;;
      hi <- mem_read s (wrapping_add8 base 1) ;;
      let deref_base := Z.lor (Z.shiftl hi 8) lo in
      Some (wrapping_add16 deref_base (index_reg_y s))
  | NoneAddressing => None  (* panic!("") *)
  end.

(** ** Instructions *)

Definition update_zero_and_negative_flags (s : CPU) (reg : Z) : CPU :=
  let s1 := set_status_bit s STATUS_BIT_Z (reg =? 0) in
  set_status_bit s1 STATUS_BIT_N (get_bit reg NEGATIVE_BIT).

Definition lda (s : CPU) (mode : AddressingMode) : option CPU :=
  addr <- get_operand_address s mode ;;
  v <- mem_read s addr ;;
  let s1 := set_reg_a s v in
  Some (update_zero_and_negative_flags s1 (reg_a s1)).

Definition ldx (s : CPU) (mode : AddressingMode) : option CPU :=
  addr <- get_operand_address s mode ;;
  v <- mem_read s addr ;;
  let s1 := set_index_reg_x s v in
  Some (update_zero_and_negative_flags s1 (index_reg_x s1)).

Definition ldy (s : CPU) (mode : AddressingMode) : option CPU :=
  addr <- get_operand_address s mode ;;
  v <- mem_read s addr ;;
  let s1 := set_index_reg_y s v in
  Some (update_zero_and_negative_flags s1 (index_reg_y s1)).

Definition sta (s : CPU) (mode : AddressingMode) : option CPU :=
  addr <- get_operand_address s mode ;;
  mem_write s addr (reg_a s).

Definition stx (s : CPU) (mode : AddressingMode) : option CPU :=
  addr <- get_operand_address s mode ;;
  mem_write s addr (index_reg_x s).

Definition sty (s : CPU) (mode : AddressingMode) : option CPU :=
  addr <- get_operand_address s mode ;;
  mem_write s addr (index_reg_y s).

(** [u16::from(bool)]. *)
Definition u16_of_bool (b : bool) : Z := if b then 1 else 0.

Definition adc (s : CPU) (mode : AddressingMode) : option CPU :=
  addr <- get_operand_address s mode ;;
  value <- mem_read s addr ;;
  let c := u16_of_bool (get_bit (status s) STATUS_BIT_C) in
  let result := value + reg_a s + c in
  let s1 := set_status_bit s STATUS_BIT_C (result >? 0xFF) in
  let result := Z.land result 0xFF in
  let s2 := set_status_bit s1 STATUS_BIT_V
              (negb (Z.land (Z.land (Z.lxor result value)
                                    (Z.lxor result (reg_a s1))) 0x80 =? 0)) in
  let s3 := set_reg_a s2 result in
  Some (update_zero_and_negative_flags s3 (reg_a s3)).

(** A - B - (1 - C) = A + (-B) - 1 + C = A + (-B - 1) + C *)
Definition sbc (s : CPU) (mode : AddressingMode) : option CPU :=
  addr <- get_operand_address s mode ;;
  value <- mem_read s addr ;;
  let c := u16_of_bool (get_bit (status s) STATUS_BIT_C) in
  let value := i8_as_u8 (i8_wrapping_sub (i8_wrapping_neg (as_i8 value)) 1) in
  let result := value + reg_a s + c in
  let s1 := set_status_bit s STATUS_BIT_C (result >? 0xFF) in
  let result := Z.land result 0xFF in
  let s2 := set_status_bit s1 STATUS_BIT_V
              (negb (Z.land (Z.land (Z.lxor result value)
                                    (Z.lxor result (reg_a s1))) 0x80 =? 0)) in
  let s3 := set_reg_a s2 result in
  Some (update_zero_and_negative_flags s3 (reg_a s3)).

Definition and (s : CPU) (mode : AddressingMode) : option CPU :=
  addr <- get_operand_address s mode ;;
  v <- mem_read s addr ;;
  let s1 := set_reg_a s (Z.land (reg_a s) v) in
  Some (update_zero_and_negative_flags s1 (reg_a s1)).

(** [u8 << 1] and [u8 >> 1]. *)
Definition shl8 (v : Z) : Z := Z.land (Z.shiftl v 1) 0xFF.
Definition shr8 (v : Z) : Z := Z.shiftr v 1.

Definition asl_accumulator (s : CPU) : option CPU :=
  let s1 := set_status_bit s STATUS_BIT_C (get_bit (reg_a s) MSB) in
  let s2 := set_reg_a s1 (shl8 (reg_a s1)) in
  Some (update_zero_and_negative_flags s2 (reg_a s2)).

Definition asl (s : CPU) (mode : AddressingMode) : option CPU :=
  addr <- get_operand_address s mode ;;
  value <- mem_read s addr ;;
  let s1 := set_status_bit s STATUS_BIT_C (get_bit value MSB) in
  let value := shl8 value in
  s2 <- mem_write s1 addr value ;;
  Some (update_zero_and_negative_flags s2 value).

Definition lsr_accumulator (s : CPU) : option CPU :=
  let value := reg_a s in
  let s1 := set_status_bit s STATUS_BIT_C (get_bit value 0) in
  let value := shr8 value in
  let s2 := set_reg_a s1 value in
  Some (update_zero_and_negative_flags s2 value).

Definition lsr (s : CPU) (mode : AddressingMode) : option CPU :=
  addr <- get_operand_address s mode ;;
  value <- mem_read s addr ;;
  let s1 := set_status_bit s STATUS_BIT_C (get_bit value 0) in
  let value := shr8 value in
  s2 <- mem_write s1 addr value ;;
  Some (update_zero_and_negative_flags s2 value).

Definition tax (s : CPU) : option CPU :=
  let s1 := set_index_reg_x s (reg_a s) in
  Some (update_zero_and_negative_flags s1 (index_reg_x s1)).

Definition txa (s : CPU) : option CPU :=
  let s1 := set_reg_a s (index_reg_x s) in
  Some (update_zero_and_negative_flags s1 (reg_a s1)).

Definition inx (s : CPU) : option CPU :=
  let s1 := set_index_reg_x s (wrapping_add8 (index_reg_x s) 1) in
  Some (update_zero_and_negative_flags s1 (index_reg_x s1)).

Definition iny (s : CPU) : option CPU :=
  let s1 := set_index_reg_y s (wrapping_add8 (index_reg_y s) 1) in
  Some (update_zero_and_negative_flags s1 (index_reg_y s1)).

Definition branch (s : CPU) (c : bool) : option CPU :=
  if c then
    jump <- mem_read s (pc s) ;;
    let jump := as_i8 jump in
    let value := wrapping_add16 (wrapping_add16 (pc s) 1) (i8_as_u16 jump) in
    Some (set_pc s value)
  else Some s.

Definition bit (s : CPU) (mode : AddressingMode) : option CPU :=
  addr <- get_operand_address s mode ;;
  value <- mem_read s addr ;;
  let result := Z.land (reg_a s) value in
  let s1 := set_status_bit s STATUS_BIT_Z (result =? 0x0) in
  let s2 := set_status_bit s1 STATUS_BIT_V (get_bit value 6) in
  Some (set_status_bit s2 STATUS_BIT_N (get_bit value 7)).

(** [cmp], [cpx] and [cpy] differ only in the register they read. *)
Definition compare_with (s : CPU) (mode : AddressingMode) (reg : Z) : option CPU :=
  addr <- get_operand_address s mode ;;
  value <- mem_read s addr ;;
  let result := wrapping_sub8 reg value in
  let s1 := set_status_bit s STATUS_BIT_Z (reg =? value) in
  let s2 := set_status_bit s1 STATUS_BIT_C (reg >=? value) in
  Some (set_status_bit s2 STATUS_BIT_N (get_bit result MSB)).

Definition cmp (s : CPU) (mode : AddressingMode) : option CPU :=
  compare_with s mode (reg_a s).
Definition cpx (s : CPU) (mode : AddressingMode) : option CPU :=
  compare_with s mode (index_reg_x s).
Definition cpy (s : CPU) (mode : AddressingMode) : option CPU :=
  compare_with s mode (index_reg_y s).

Definition dec (s : CPU) (mode : AddressingMode) : option CPU :=
  addr <- get_operand_address s mode ;;
  value <- mem_read s addr ;;
  let value := wrapping_sub8 value 1 in
  s1 <- mem_write s addr value ;;
  Some (update_zero_and_negative_flags s1 value).

Definition inc (s : CPU) (mode : AddressingMode) : option CPU :=
  addr <- get_operand_address s mode ;;
  value <- mem_read s addr ;;
  let value := wrapping_add8 value 1 in
  s1 <- mem_write s addr value ;;
  Some (update_zero_and_negative_flags s1 value).

Definition dex (s : CPU) : option CPU :=
  let s1 := set_index_reg_x s (wrapping_sub8 (index_reg_x s) 1) in
  Some (update_zero_and_negative_flags s1 (index_reg_x s1)).

Definition dey (s : CPU) : option CPU :=
  let s1 := set_index_reg_y s (wrapping_sub8 (index_reg_y s) 1) in
  Some (update_zero_and_negative_flags s1 (index_reg_y s1)).

Definition eor (s : CPU) (mode : AddressingMode) : option CPU :=
  addr <- get_operand_address s mode ;;
  value <- mem_read s addr ;;
  let s1 := set_reg_a s (Z.lxor (reg_a s) value) in
  Some (update_zero_and_negative_flags s1 (reg_a s1)).

Definition ora (s : CPU) (mode : AddressingMode) : option CPU :=
  addr <- get_operand_address s mode ;;
  value <- mem_read s addr ;;
  let s1 := set_reg_a s (Z.lor (reg_a s) value) in
  Some (update_zero_and_negative_flags s1 (reg_a s1)).

Definition rol_accumulator (s : CPU) : option CPU :=
  let old := reg_a s in
  let value := shl8 old in
  let s1 := set_status_bit s STATUS_BIT_C (get_bit old MSB) in
  let value := set_bit value 0 (get_bit old MSB) in
  let s2 := set_reg_a s1 value in
  Some (update_zero_and_negative_flags s2 (reg_a s2)).

Definition rol (s : CPU) (mode : AddressingMode) : option CPU :=
  addr <- get_operand_address s mode ;;
  old <- mem_read s addr ;;
  let value := shl8 old in
  let s1 := set_status_bit s STATUS_BIT_C (get_bit old MSB) in
  let value := set_bit value 0 (get_bit old MSB) in
  s2 <- mem_write s1 addr value ;;
  Some (update_zero_and_negative_flags s2 value).

Definition ror_accumulator (s : CPU) : option CPU :=
  let old := reg_a s in
  let value := shr8 old in
  let s1 := set_status_bit s STATUS_BIT_C (get_bit old 0) in
  let value := set_bit value MSB (get_bit old 0) in
  let s2 := set_reg_a s1 value in
  Some (update_zero_and_negative_flags s2 (reg_a s2)).

Definition ror (s : CPU) (mode : AddressingMode) : option CPU :=
  addr <- get_operand_address s mode ;;
  old <- mem_read s addr ;;
  let value := shr8 old in
  let s1 := set_status_bit s STATUS_BIT_C (get_bit old 0) in
  let value := set_bit value MSB (get_bit old 0) in
  s2 <- mem_write s1 addr value ;;
  Some (update_zero_and_negative_flags s2 value).

Definition jsr (s : CPU) : option CPU :=
  p2 <- checked_add16 (pc s) 2 ;;
  ret <- checked_sub16 p2 1 ;;
  s1 <- stack_push_u16 s ret ;;
  target <- mem_read_u16 s1 (pc s1) ;;
  Some (set_pc s1 target).

Definition rti (s : CPU) : option CPU :=
  r1 <- stack_pop s ;;
  let '(s1, st) := r1 in
  let s2 := set_status s1 st in
  r2 <- stack_pop_u16 s2 ;;
  let '(s3, p) := r2 in
  Some (set_pc s3 p).

Definition rts (s : CPU) : option CPU :=
  r <- stack_pop_u16 s ;;
  let '(s1, p) := r in
  p1 <- checked_add16 p 1 ;;
  Some (set_pc s1 p1).

(** ** Opcode table *)

Record OpCode := mkOpCode {
  code : Z;
  len : Z;
  mode : AddressingMode
}.

(** The eight addressing modes of the ALU group (ORA, AND, EOR, ADC, STA,
    LDA, CMP, SBC), listed at offsets +9/+5/+15/+D/+1D/+19/+1/+11 of the
    group's base, with their byte lengths. *)
Definition alu_group (imm zp zpx abs absx absy indx indy : Z) : list OpCode :=
  [mkOpCode imm 2 Immediate; mkOpCode zp 2 ZeroPage; mkOpCode zpx 2 ZeroPage_X;
   mkOpCode abs 3 Absolute; mkOpCode absx 3 Absolute_X; mkOpCode absy 3 Absolute_Y;
   mkOpCode indx 2 Indirect_X; mkOpCode indy 2 Indirect_Y].

(** Read-modify-write group (ASL, LSR, ROL, ROR): accumulator, zp, zp,X,
    abs, abs,X. *)
Definition rmw_group (acc zp zpx abs absx : Z) : list OpCode :=
  [mkOpCode acc 1 NoneAddressing; mkOpCode zp 2 ZeroPage;
   mkOpCode zpx 2 ZeroPage_X; mkOpCode abs 3 Absolute; mkOpCode absx 3 Absolute_X].

Definition implied (c : Z) : OpCode := mkOpCode c 1 NoneAddressing.
Definition relative (c : Z) : OpCode := mkOpCode c 2 NoneAddressing.

(** Modelled from the spec: [opcodes.rs] ([OPCODES]/[OPCODES_MAP]) is not
    part of the sources.  Per the spec (4.1) it maps every official
    (documented) 6502 opcode, and only those, to its addressing mode and
    instruction length; relative branches, jumps and implied or
    accumulator instructions carry the "no operand" mode. *)
Definition CPU_OPS_CODES : list OpCode :=
  [implied 0x00; implied 0xea;
   implied 0xaa; implied 0xa8; implied 0xba; implied 0x8a; implied 0x9a;
   implied 0x98;
   implied 0xe8; implied 0xc8; implied 0xca; implied 0x88;
   implied 0x18; implied 0xd8; implied 0x58; implied 0xb8;
   implied 0x38; implied 0xf8; implied 0x78;
   implied 0x48; implied 0x08; implied 0x68; implied 0x28;
   implied 0x40; implied 0x60;
   mkOpCode 0x20 3 NoneAddressing;
   mkOpCode 0x4c 3 NoneAddressing; mkOpCode 0x6c 3 NoneAddressing;
   relative 0x90; relative 0xb0; relative 0xf0; relative 0x30;
   relative 0xd0; relative 0x10; relative 0x50; relative 0x70;
   mkOpCode 0x24 2 ZeroPage; mkOpCode 0x2c 3 Absolute;
   mkOpCode 0xa2 2 Immediate; mkOpCode 0xa6 2 ZeroPage; mkOpCode 0xb6 2 ZeroPage_Y;
   mkOpCode 0xae 3 Absolute; mkOpCode 0xbe 3 Absolute_Y;
   mkOpCode 0xa0 2 Immediate; mkOpCode 0xa4 2 ZeroPage; mkOpCode 0xb4 2 ZeroPage_X;
   mkOpCode 0xac 3 Absolute; mkOpCode 0xbc 3 Absolute_X;
   mkOpCode 0x86 2 ZeroPage; mkOpCode 0x96 2 ZeroPage_Y; mkOpCode 0x8e 3 Absolute;
   mkOpCode 0x84 2 ZeroPage; mkOpCode 0x94 2 ZeroPage_X; mkOpCode 0x8c 3 Absolute;
   mkOpCode 0xe0 2 Immediate; mkOpCode 0xe4 2 ZeroPage; mkOpCode 0xec 3 Absolute;
   mkOpCode 0xc0 2 Immediate; mkOpCode 0xc4 2 ZeroPage; mkOpCode 0xcc 3 Absolute;
   mkOpCode 0xc6 2 ZeroPage; mkOpCode 0xd6 2 ZeroPage_X;
   mkOpCode 0xce 3 Absolute; mkOpCode 0xde 3 Absolute_X;
   mkOpCode 0xe6 2 ZeroPage; mkOpCode 0xf6 2 ZeroPage_X;
   mkOpCode 0xee 3 Absolute; mkOpCode 0xfe 3 Absolute_X]
  ++ alu_group 0x09 0x05 0x15 0x0d 0x1d 0x19 0x01 0x11
  ++ alu_group 0x29 0x25 0x35 0x2d 0x3d 0x39 0x21 0x31
  ++ alu_group 0x49 0x45 0x55 0x4d 0x5d 0x59 0x41 0x51
  ++ alu_group 0x69 0x65 0x75 0x6d 0x7d 0x79 0x61 0x71
  ++ tl (alu_group 0x89 0x85 0x95 0x8d 0x9d 0x99 0x81 0x91)
  ++ alu_group 0xa9 0xa5 0xb5 0xad 0xbd 0xb9 0xa1 0xb1
  ++ alu_group 0xc9 0xc5 0xd5 0xcd 0xdd 0xd9 0xc1 0xd1
  ++ alu_group 0xe9 0xe5 0xf5 0xed 0xfd 0xf9 0xe1 0xf1
  ++ rmw_group 0x0a 0x06 0x16 0x0e 0x1e
  ++ rmw_group 0x4a 0x46 0x56 0x4e 0x5e
  ++ rmw_group 0x2a 0x26 0x36 0x2e 0x3e
  ++ rmw_group 0x6a 0x66 0x76 0x6e 0x7e.

(** [OPCODES_MAP.get(&code)]. *)
Definition OPCODES_MAP (c : Z) : option OpCode :=
  find (fun op => code op =? c) CPU_OPS_CODES.

(** ** The fetch-decode-execute loop ([CPU::run_with_callback]) *)

(** [std::io::Error], by its kind. *)
Inductive ErrorKind := Unsupported | Other | Interrupted.
Record io_error := io_error_from { kind : ErrorKind }.

Inductive io_result := IoOk | IoErr (e : io_error).

(** Outcome of the [match code { ... }] arms. *)
Inductive exec_result :=
| Next (s : CPU)        (* fall through to the [pc_state] check *)
| Halt (s : CPU)        (* [return Ok(())] *)
| Panicked.             (* a panic inside the arm, [todo!()] *)

Definition of_opt (r : option CPU) : exec_result :=
  match r with Some s => Next s | None => Panicked end.

(** [self.pc += (opcode.len - 1) as u16]. *)
Definition advance (s : CPU) (op : OpCode) : option CPU :=
  p <- checked_add16 (pc s) (len op - 1) ;;
  Some (set_pc s p).

Definition then_advance (r : option CPU) (op : OpCode) : exec_result :=
  of_opt (s <- r ;; advance s op).

Definition one_of (c : Z) (l : list Z) : bool := existsb (Z.eqb c) l.

Definition jmp_absolute (s : CPU) : option CPU :=
  addr <- mem_read_u16 s (pc s) ;;
  Some (set_pc s addr).

Definition jmp_indirect (s : CPU) : option CPU :=
  addr <- mem_read_u16 s (pc s) ;;
  indirect_ref <-
    (if Z.land addr 0x00FF =? 0x00FF then
       lo <- mem_read s addr ;;
       hi <- mem_read s (Z.land addr 0xFF00) ;;
       Some (Z.lor (Z.shiftl hi 8) lo)
     else mem_read_u16 s addr) ;;
  Some (set_pc s indirect_ref).

Definition flag (s : CPU) (i : Z) : bool := get_bit (status s) i.

Definition dispatch (c : Z) (op : OpCode) (s : CPU) : exec_result :=
  let m := mode op in
  if one_of c [0xA9; 0xA5; 0xB5; 0xAD; 0xBD; 0xB9; 0xA1; 0xB1] then then_advance (lda s m) op
  else if one_of c [0xa2; 0xa6; 0xb6; 0xae; 0xbe] then then_advance (ldx s m) op
  else if one_of c [0xa0; 0xa4; 0xb4; 0xac; 0xbc] then then_advance (ldy s m) op
  else if one_of c [0x85; 0x95; 0x8d; 0x9d; 0x99; 0x81; 0x91] then then_advance (sta s m) op
  else if one_of c [0x86; 0x96; 0x8e] then then_advance (stx s m) op
  else if one_of c [0x84; 0x94; 0x8c] then then_advance (sty s m) op
  else if one_of c [0x69; 0x65; 0x75; 0x6d; 0x7d; 0x79; 0x61; 0x71] then then_advance (adc s m) op
  else if one_of c [0x29; 0x25; 0x35; 0x2d; 0x3d; 0x39; 0x21; 0x31] then then_advance (and s m) op
  else if c =? 0x0a then then_advance (asl_accumulator s) op
  else if one_of c [0x06; 0x16; 0x0e; 0x1e] then then_advance (asl s m) op
  else if c =? 0x4a then of_opt (lsr_accumulator s)
  else if one_of c [0x46; 0x56; 0x4e; 0x5e] then of_opt (lsr s m)
  else if c =? 0x90 then of_opt (branch s (negb (flag s STATUS_BIT_C)))
  else if c =? 0xb0 then of_opt (branch s (flag s STATUS_BIT_C))
  else if c =? 0xf0 then of_opt (branch s (flag s STATUS_BIT_Z))
  else if c =? 0x30 then of_opt (branch s (flag s STATUS_BIT_N))
  else if c =? 0xd0 then of_opt (branch s (negb (flag s STATUS_BIT_Z)))
  else if c =? 0x10 then of_opt (branch s (negb (flag s STATUS_BIT_N)))
  else if c =? 0x50 then of_opt (branch s (negb (flag s STATUS_BIT_V)))
  else if c =? 0x70 then of_opt (branch s (flag s STATUS_BIT_V))
  else if one_of c [0x24; 0x2c] then then_advance (bit s m) op
  else if one_of c [0xc9; 0xc5; 0xd5; 0xcd; 0xdd; 0xd9; 0xc1; 0xd1] then then_advance (cmp s m) op
  else if one_of c [0xe0; 0xe4; 0xec] then then_advance (cpx s m) op
  else if one_of c [0xc0; 0xc4; 0xcc] then then_advance (cpy s m) op
  else if one_of c [0xc6; 0xd6; 0xce; 0xde] then then_advance (dec s m) op
  else if one_of c [0xe6; 0xf6; 0xee; 0xfe] then then_advance (inc s m) op
  else if c =? 0xca then then_advance (dex s) op
  else if c =? 0x88 then then_advance (dey s) op
  else if one_of c [0x49; 0x45; 0x55; 0x4d; 0x5d; 0x59; 0x41; 0x51] then then_advance (eor s m) op
  else if one_of c [0x09; 0x05; 0x15; 0x0d; 0x1d; 0x19; 0x01; 0x11] then then_advance (ora s m) op
  else if one_of c [0xe9; 0xe5; 0xf5; 0xed; 0xfd; 0xf9; 0xe1; 0xf1] then then_advance (sbc s m) op
  else if c =? 0x2a then of_opt (rol_accumulator s)
  else if one_of c [0x26; 0x36; 0x2e; 0x3e] then then_advance (rol s m) op
  else if c =? 0x6a then of_opt (ror_accumulator s)
  else if one_of c [0x66; 0x76; 0x6e; 0x7e] then then_advance (ror s m) op
  else if c =? 0x18 then Next (set_status_bit s STATUS_BIT_C false)
  else if c =? 0xd8 then Next (set_status_bit s STATUS_BIT_D false)
  else if c =? 0x58 then Next (set_status_bit s STATUS_BIT_I false)
  else if c =? 0x38 then Next (set_status_bit s STATUS_BIT_C true)
  else if c =? 0xf8 then Next (set_status_bit s STATUS_BIT_D true)
  else if c =? 0x78 then Next (set_status_bit s STATUS_BIT_I true)
  else if c =? 0xAA then of_opt (tax s)
  else if c =? 0x8A then of_opt (txa s)
  else if c =? 0xE8 then of_opt (inx s)
  else if c =? 0xc8 then of_opt (iny s)
  else if c =? 0x20 then of_opt (jsr s)
  else if c =? 0x4c then of_opt (jmp_absolute s)
  else if c =? 0x6c then of_opt (jmp_indirect s)
  else if c =? 0x40 then of_opt (rti s)
  else if c =? 0x60 then of_opt (rts s)
  else if c =? 0x48 then of_opt (stack_push s (reg_a s))
  else if c =? 0x08 then of_opt (stack_push s (status s))
  else if c =? 0x68 then
    of_opt (r <- stack_pop s ;; let '(s1, v) := r in Some (set_reg_a s1 v))
  else if c =? 0x28 then
    of_opt (r <- stack_pop s ;; let '(s1, v) := r in Some (set_status s1 v))
  else if c =? 0xea then Next s
  else if c =? 0x00 then Halt s
  else Panicked.  (* _ => todo!() *)

(** One iteration of the [loop]: the hook, the fetch, the decode, the arm and
    the [pc_state] check.  The callback is an [FnMut] closure: its own state
    [h] is threaded through the calls. *)
Inductive step_result {H : Type} :=
| Continue (h : H) (s : CPU)
| Stop (r : io_result) (h : H) (s : CPU)
| StepPanicked.
Arguments step_result : clear implicits.

Definition step {H : Type} (callback : H -> CPU -> H * CPU * io_result)
    (h : H) (s : CPU) : step_result H :=
  match callback h s with
  | (h1, s1, IoErr e) => Stop (IoErr e) h1 s1          (* callback(self)?; *)
  | (h1, s1, IoOk) =>
      match mem_read s1 (pc s1), checked_add16 (pc s1) 1 with
      | Some c, Some p1 =>
          let s2 := set_pc s1 p1 in
          let pc_state := pc s2 in
          match OPCODES_MAP c with
          | None => Stop (IoErr (io_error_from Unsupported)) h1 s2
          | Some op =>
              match dispatch c op s2 with
              | Panicked => StepPanicked
              | Halt s3 => Stop IoOk h1 s3
              | Next s3 =>
                  if pc_state =? pc s3 then
                    match advance s3 op with
                    | Some s4 => Continue h1 s4
                    | None => StepPanicked
                    end
                  else Continue h1 s3
              end
          end
      | _, _ => StepPanicked
      end
  end.

Inductive run_result {H : Type} :=
| Finished (r : io_result) (h : H) (s : CPU)
| RunPanicked
| OutOfFuel (h : H) (s : CPU).
Arguments run_result : clear implicits.

(** [CPU::run_with_callback], cut after [fuel] iterations. *)
Fixpoint run_with_callback {H : Type} (fuel : nat)
    (callback : H -> CPU -> H * CPU * io_result) (h : H) (s : CPU) : run_result H :=
  match fuel with
  | O => OutOfFuel h s
  | S n =>
      match step callback h s with
      | Continue h1 s1 => run_with_callback n callback h1 s1
      | Stop r h1 s1 => Finished r h1 s1
      | StepPanicked => RunPanicked
      end
  end.

Definition noop_callback (h : unit) (s : CPU) : unit * CPU * io_result := (h, s, IoOk).

(** [CPU::run]: [self.run_with_callback(|_| Ok(())).unwrap()]. *)
Definition run (fuel : nat) (s : CPU) : run_result unit :=
  match run_with_callback fuel noop_callback tt s with
  | Finished (IoErr _) _ _ => RunPanicked
  | r => r
  end.

(** [CPU::load]: copy [program] to [0x0600..] and set the reset vector. *)
Definition load (s : CPU) (program : list Z) : option CPU :=
  if 0x0600 + Z.of_nat (length program) <=? MEMORY_LEN then
    let m := fun a => if (0x0600 <=? a) && (a <? 0x0600 + Z.of_nat (length program))
                      then nth (Z.to_nat (a - 0x0600)) program 0 else memory s a in
    mem_write_u16 (set_memory s m) 0xFFFC 0x0600
  else None.

(** [CPU::load_and_run], cut after [fuel] iterations. *)
Definition load_and_run (fuel : nat) (s : CPU) (program : list Z) : run_result unit :=
  match load s program with
  | None => RunPanicked
  | Some s1 =>
      match reset s1 with
      | None => RunPanicked
      | Some s2 => run fuel s2
      end
  end.

(** * Properties *)

(** ** Bit-level facts *)

Lemma get_set_bit_eq (v i : Z) (b : bool) :
  0 <= i -> get_bit (set_bit v i b) i = b.
Proof.
  intros Hi; unfold get_bit, set_bit; destruct b.
  - now rewrite Z.setbit_eq.
  - now rewrite Z.clearbit_eq.
Qed.

Lemma get_set_bit_neq (v i j : Z) (b : bool) :
  0 <= i -> i <> j -> get_bit (set_bit v i b) j = get_bit v j.
Proof.
  intros Hi Hij; unfold get_bit, set_bit; destruct b.
  - now rewrite Z.setbit_neq.
  - now rewrite Z.clearbit_neq.
Qed.

Lemma land_0x80_eqb (w : Z) : (Z.land w 0x80 =? 0) = negb (Z.testbit w 7).
Proof.
  destruct (Z.testbit w 7) eqn:E; simpl.
  - apply Z.eqb_neq; intros H0.
    assert (Z.testbit (Z.land w 0x80) 7 = false) as F by (rewrite H0; reflexivity).
    rewrite Z.land_spec, E in F; discriminate.
  - apply Z.eqb_eq, Z.bits_inj'; intros n Hn.
    rewrite Z.land_spec, Z.bits_0.
    change 0x80 with (2 ^ 7); rewrite Z.pow2_bits_eqb by lia.
    destruct (Z.eqb_spec 7 n) as [<-|]; [now rewrite E | apply andb_false_r].
Qed.

Lemma land_0xFF (z : Z) : Z.land z 0xFF = z mod 256.
Proof. change 0xFF with (Z.ones 8); now rewrite Z.land_ones by lia. Qed.

(** Reading back the flags after [update_zero_and_negative_flags]. *)
Lemma zn_status (s : CPU) (reg i : Z) :
  0 <= i ->
  get_bit (status (update_zero_and_negative_flags s reg)) i =
  if i =? STATUS_BIT_N then get_bit reg NEGATIVE_BIT
  else if i =? STATUS_BIT_Z then (reg =? 0)
  else get_bit (status s) i.
Proof.
  intros Hi; unfold update_zero_and_negative_flags, set_status_bit; simpl.
  unfold STATUS_BIT_N, STATUS_BIT_Z.
  destruct (Z.eqb_spec i 7) as [->|H7].
  - now rewrite get_set_bit_eq by lia.
  - rewrite get_set_bit_neq by lia.
    destruct (Z.eqb_spec i 1) as [->|H1].
    + now rewrite get_set_bit_eq by lia.
    + now rewrite get_set_bit_neq by lia.
Qed.

(** ** C1: add-with-carry *)

(** Claim C1.  For every operand byte [v] read at the operand address, every
    accumulator value [a] and carry-in [c], [adc] sets the accumulator to
    [(v + a + c) mod 256], Carry iff [v + a + c > 0xFF], Overflow to bit 7 of
    [(r ^ v) & (r ^ a)] for the truncated result [r], Zero iff the new
    accumulator is 0 and Negative to its bit 7. *)
Theorem adc_spec (s : CPU) (m : AddressingMode) (addr v : Z) :
  get_operand_address s m = Some addr ->
  mem_read s addr = Some v ->
  0 <= v < 256 -> 0 <= reg_a s < 256 ->
  let a := reg_a s in
  let c := u16_of_bool (get_bit (status s) STATUS_BIT_C) in
  let r := (v + a + c) mod 256 in
  exists s', adc s m = Some s' /\
    reg_a s' = r /\
    get_bit (status s') STATUS_BIT_C = (v + a + c >? 0xFF) /\
    get_bit (status s') STATUS_BIT_V = Z.testbit (Z.land (Z.lxor r v) (Z.lxor r a)) 7 /\
    get_bit (status s') STATUS_BIT_Z = (reg_a s' =? 0) /\
    get_bit (status s') STATUS_BIT_N = Z.testbit (reg_a s') 7.
Proof.
  intros Hop Hrd Hv Ha a c r.
  unfold adc; rewrite Hop; cbn [bind]; rewrite Hrd; cbn [bind].
  eexists; split; [reflexivity|].
  cbn [reg_a status set_reg_a set_status_bit set_status]; rewrite land_0xFF.
  split; [reflexivity|].
  rewrite !zn_status by (unfold STATUS_BIT_C, STATUS_BIT_V, STATUS_BIT_Z, STATUS_BIT_N; lia).
  unfold set_status_bit, STATUS_BIT_C, STATUS_BIT_V, STATUS_BIT_Z, STATUS_BIT_N.
  cbn [Z.eqb Pos.eqb status set_status set_reg_a].
  repeat split.
  - rewrite get_set_bit_neq by lia.
    now rewrite get_set_bit_eq by lia.
  - rewrite get_set_bit_eq by lia.
    now rewrite land_0x80_eqb, negb_involutive.
Qed.

(** Concrete instance of C1: 0xFF + 0x01 with carry clear. *)
Definition adc_demo : CPU :=
  mkCPU 0x0601 0xFF 0xFD 0 0 0 (fun a => if a =? 0x0601 then 0x01 else 0).

Lemma adc_spec_witness :
  get_operand_address adc_demo Immediate = Some 0x0601 /\
  mem_read adc_demo 0x0601 = Some 0x01 /\
  exists s', adc adc_demo Immediate = Some s' /\ reg_a s' = 0 /\
    get_bit (status s') STATUS_BIT_C = true /\
    get_bit (status s') STATUS_BIT_V = false /\
    get_bit (status s') STATUS_BIT_Z = true /\
    get_bit (status s') STATUS_BIT_N = false.
Proof.
  split; [reflexivity|]; split; [reflexivity|].
  destruct (adc_spec adc_demo Immediate 0x0601 0x01 eq_refl eq_refl
              ltac:(lia) ltac:(simpl; lia))
    as (s' & Hs & Ha & Hc & Hv & Hz & Hn).
  exists s'; rewrite Hc, Hv, Hz, Hn, Ha; split; [exact Hs|].
  vm_compute; repeat split.
Defined.

(** ** Word assembly [hi << 8 | lo] *)

Lemma lor_disjoint_add (a b : Z) : Z.land a b = 0 -> Z.lor a b = a + b.
Proof.
  intros H; rewrite Z.add_nocarry_lxor by exact H.
  apply Z.bits_inj'; intros n Hn.
  assert (Hb : Z.testbit (Z.land a b) n = false) by (rewrite H; apply Z.bits_0).
  rewrite Z.land_spec in Hb; rewrite Z.lor_spec, Z.lxor_spec.
  destruct (Z.testbit a n), (Z.testbit b n); simpl in *; congruence.
Qed.

Lemma word_of_bytes (hi lo : Z) :
  0 <= lo < 256 -> Z.lor (Z.shiftl hi 8) lo = lo + 256 * hi.
Proof.
  intros Hlo; rewrite Z.shiftl_mul_pow2 by lia.
  rewrite lor_disjoint_add; [change (2 ^ 8) with 256; lia|].
  apply Z.bits_inj'; intros n Hn; rewrite Z.land_spec, Z.bits_0.
  destruct (Z.lt_ge_cases n 8).
  - now rewrite Z.mul_pow2_bits_low.
  - rewrite <- (Z.mod_small lo (2 ^ 8)) by (change (2 ^ 8) with 256; lia).
    rewrite Z.mod_pow2_bits_high by lia; apply andb_false_r.
Qed.

(** ** C2: the memory array *)

(** Claim C2 (the code has [memory: [u8; 0xFFFF]], 65535 bytes): a
    single-byte read or write at address 0xFFFF indexes past the end of the
    array and panics, whatever the state and the byte written. *)
Theorem mem_access_0xFFFF_panics (s : CPU) (data : Z) :
  mem_read s 0xFFFF = None /\ mem_write s 0xFFFF data = None.
Proof. split; reflexivity. Qed.

(** ** C3 and C4: rotations *)

(** Accumulator 0x00, Carry set. *)
Definition rot_demo : CPU :=
  mkCPU 0x0601 0x00 0xFD 0 0 0x01 (fun _ => 0).

(** Claim C3: with accumulator 0x00 and Carry set, [rol_accumulator] leaves
    0x00 in the accumulator (bit 0 is fed from the old bit 7, not from the
    previous Carry, which would give 0x01), and [ror_accumulator] leaves
    0x00 (bit 7 from the old bit 0, not the Carry, which would give 0x80). *)
Theorem rotate_ignores_carry_in :
  get_bit (status rot_demo) STATUS_BIT_C = true /\
  option_map reg_a (rol_accumulator rot_demo) = Some 0x00 /\
  option_map reg_a (ror_accumulator rot_demo) = Some 0x00.
Proof. repeat split; reflexivity. Qed.

(** Claim C4: from accumulator 0x00 with Carry set, ROL followed by ROR gives
    back the accumulator but leaves Carry clear: the original Carry is lost.
    The same holds for ROR followed by ROL. *)
Theorem rol_ror_loses_carry :
  (exists s1 s2, rol_accumulator rot_demo = Some s1 /\
     ror_accumulator s1 = Some s2 /\
     reg_a s2 = reg_a rot_demo /\
     get_bit (status rot_demo) STATUS_BIT_C = true /\
     get_bit (status s2) STATUS_BIT_C = false) /\
  (exists s1 s2, ror_accumulator rot_demo = Some s1 /\
     rol_accumulator s1 = Some s2 /\
     reg_a s2 = reg_a rot_demo /\
     get_bit (status rot_demo) STATUS_BIT_C = true /\
     get_bit (status s2) STATUS_BIT_C = false).
Proof.
  split; do 2 eexists; (split; [reflexivity|]); (split; [reflexivity|]);
    repeat split; reflexivity.
Qed.

(** ** C5: subtract-with-carry *)

(** The operand transformation of [sbc], checked on all 256 bytes. *)
Definition sbc_operand (value : Z) : Z :=
  i8_as_u8 (i8_wrapping_sub (i8_wrapping_neg (as_i8 value)) 1).

Lemma byte_range_check (P : Z -> bool) :
  forallb (fun n => P (Z.of_nat n)) (seq 0 256) = true ->
  forall v, 0 <= v < 256 -> P v = true.
Proof.
  intros H v Hv; rewrite forallb_forall in H.
  rewrite <- (Z2Nat.id v) by lia; apply H, in_seq; lia.
Qed.

Lemma sbc_operand_lnot (v : Z) : 0 <= v < 256 -> sbc_operand v = Z.lxor v 0xFF.
Proof.
  intros Hv; apply Z.eqb_eq.
  exact (byte_range_check (fun v => sbc_operand v =? Z.lxor v 0xFF)
           (eq_refl true) v Hv).
Qed.

(** Claim C5.  [sbc] on operand byte [v] gives exactly the accumulator and
    status byte (hence the same Carry, Overflow, Zero and Negative) that
    [adc] gives on the operand byte [NOT v] = [v ^ 0xFF], from the same
    accumulator and status (same carry-in). *)
Theorem sbc_is_adc_of_complement (s t : CPU) (m m' : AddressingMode)
    (addr addr' v : Z) :
  get_operand_address s m = Some addr ->
  mem_read s addr = Some v ->
  0 <= v < 256 ->
  get_operand_address t m' = Some addr' ->
  mem_read t addr' = Some (Z.lxor v 0xFF) ->
  reg_a t = reg_a s ->
  status t = status s ->
  exists s1 t1, sbc s m = Some s1 /\ adc t m' = Some t1 /\
    reg_a s1 = reg_a t1 /\ status s1 = status t1.
Proof.
  intros Hs Hsr Hv Ht Htr Ha Hst.
  unfold sbc, adc; rewrite Hs, Ht; cbn [bind]; rewrite Hsr, Htr; cbn [bind].
  do 2 eexists; split; [reflexivity|]; split; [reflexivity|].
  change (i8_as_u8 (i8_wrapping_sub (i8_wrapping_neg (as_i8 v)) 1))
    with (sbc_operand v).
  rewrite (sbc_operand_lnot v Hv).
  cbn; rewrite Ha, Hst; split; reflexivity.
Qed.

(** Concrete instance of C5: 0x10 - 0x01 with Carry set (no borrow), against
    0x10 + 0xFE with Carry set. *)
Definition sbc_demo : CPU :=
  mkCPU 0x0601 0x10 0xFD 0 0 0x01 (fun a => if a =? 0x0601 then 0x01 else 0).
Definition sbc_demo_adc : CPU :=
  mkCPU 0x0601 0x10 0xFD 0 0 0x01 (fun a => if a =? 0x0601 then 0xFE else 0).

Lemma sbc_is_adc_of_complement_witness :
  get_operand_address sbc_demo Immediate = Some 0x0601 /\
  mem_read sbc_demo 0x0601 = Some 0x01 /\
  mem_read sbc_demo_adc 0x0601 = Some (Z.lxor 0x01 0xFF) /\
  exists s1 t1, sbc sbc_demo Immediate = Some s1 /\
    adc sbc_demo_adc Immediate = Some t1 /\
    reg_a s1 = reg_a t1 /\ status s1 = status t1.
Proof.
  split; [reflexivity|]; split; [reflexivity|]; split; [reflexivity|].
  apply (sbc_is_adc_of_complement sbc_demo sbc_demo_adc Immediate Immediate
           0x0601 0x0601 0x01); try reflexivity; lia.
Defined.

(** ** C7: push then pull *)

Lemma sp_wrap_roundtrip (x : Z) :
  0 <= x < 256 -> wrapping_add8 (wrapping_sub8 x 1) 1 = x.
Proof.
  intros Hx; unfold wrapping_add8, wrapping_sub8.
  rewrite Zplus_mod_idemp_l; replace (x - 1 + 1) with x by lia.
  now apply Z.mod_small.
Qed.

Lemma stack_pop_push (s : CPU) (b : Z) :
  0 <= sp s < 256 ->
  exists s1 s2, stack_push s b = Some s1 /\ stack_pop s1 = Some (s2, b) /\
    sp s2 = sp s.
Proof.
  intros Hsp; unfold stack_push, mem_write.
  replace (STACK_BASE + sp s <? MEMORY_LEN) with true
    by (symmetry; apply Z.ltb_lt; unfold STACK_BASE, MEMORY_LEN; lia).
  cbn [bind]; do 2 eexists; split; [reflexivity|].
  unfold stack_pop, mem_read; cbn [sp set_sp set_memory memory].
  rewrite sp_wrap_roundtrip by exact Hsp.
  replace (STACK_BASE + sp s <? MEMORY_LEN) with true
    by (symmetry; apply Z.ltb_lt; unfold STACK_BASE, MEMORY_LEN; lia).
  cbn [bind]; rewrite Z.eqb_refl; split; [reflexivity|].
  reflexivity.
Qed.

Lemma dispatch_0x48 (op : OpCode) (s : CPU) :
  dispatch 0x48 op s = of_opt (stack_push s (reg_a s)).
Proof. reflexivity. Qed.
Lemma dispatch_0x08 (op : OpCode) (s : CPU) :
  dispatch 0x08 op s = of_opt (stack_push s (status s)).
Proof. reflexivity. Qed.
Lemma dispatch_0x68 (op : OpCode) (s : CPU) :
  dispatch 0x68 op s =
  of_opt (r <- stack_pop s ;; let '(s1, v) := r in Some (set_reg_a s1 v)).
Proof. reflexivity. Qed.
Lemma dispatch_0x28 (op : OpCode) (s : CPU) :
  dispatch 0x28 op s =
  of_opt (r <- stack_pop s ;; let '(s1, v) := r in Some (set_status s1 v)).
Proof. reflexivity. Qed.

(** Claim C7.  For every stack pointer and every register byte (any of the
    256 values, flag bytes with bits 4-5 set included), PHA (0x48) followed
    by PLA (0x68) restores the accumulator and the stack pointer, and PHP
    (0x08) followed by PLP (0x28) restores the whole status byte, unmasked,
    and the stack pointer. *)
Theorem push_pull_roundtrip (s : CPU) (pha pla php plp : OpCode) :
  0 <= sp s < 256 ->
  (exists s1 s2, dispatch 0x48 pha s = Next s1 /\ dispatch 0x68 pla s1 = Next s2 /\
     reg_a s2 = reg_a s /\ sp s2 = sp s) /\
  (exists s1 s2, dispatch 0x08 php s = Next s1 /\ dispatch 0x28 plp s1 = Next s2 /\
     status s2 = status s /\ sp s2 = sp s).
Proof.
  intros Hsp; split.
  - destruct (stack_pop_push s (reg_a s) Hsp) as (s1 & s2 & Hpush & Hpop & Hs2).
    exists s1, (set_reg_a s2 (reg_a s)).
    rewrite dispatch_0x48, dispatch_0x68, Hpush, Hpop; repeat split; exact Hs2.
  - destruct (stack_pop_push s (status s) Hsp) as (s1 & s2 & Hpush & Hpop & Hs2).
    exists s1, (set_status s2 (status s)).
    rewrite dispatch_0x08, dispatch_0x28, Hpush, Hpop; repeat split; exact Hs2.
Qed.

(** Concrete instance of C7: stack pointer 0x00 (the push wraps it to
    0xFF), accumulator 0xA5, status 0x30 (bits 4 and 5 set). *)
Definition stack_demo : CPU :=
  mkCPU 0x0601 0xA5 0x00 0 0 0x30 (fun _ => 0).

Lemma push_pull_roundtrip_witness :
  0 <= sp stack_demo < 256 /\
  (exists s1 s2, dispatch 0x48 (implied 0x48) stack_demo = Next s1 /\
     dispatch 0x68 (implied 0x68) s1 = Next s2 /\
     reg_a s2 = reg_a stack_demo /\ sp s2 = sp stack_demo) /\
  (exists s1 s2, dispatch 0x08 (implied 0x08) stack_demo = Next s1 /\
     dispatch 0x28 (implied 0x28) s1 = Next s2 /\
     status s2 = status stack_demo /\ sp s2 = sp stack_demo).
Proof.
  split; [simpl; lia|].
  apply push_pull_roundtrip; simpl; lia.
Defined.

(** ** C9: reset *)

(** Claim C9.  [reset] loads [pc] with the little-endian word at 0xFFFC
    (low byte at 0xFFFC, high byte at 0xFFFD), zeroes the accumulator, the
    X register and the status byte, sets the stack pointer to 0xFD and
    leaves the memory unchanged. *)
Theorem reset_spec (s : CPU) :
  0 <= memory s 0xFFFC < 256 ->
  exists s', reset s = Some s' /\
    pc s' = memory s 0xFFFC + 256 * memory s 0xFFFD /\
    reg_a s' = 0 /\ index_reg_x s' = 0 /\ status s' = 0 /\
    sp s' = 0xFD /\ memory s' = memory s.
Proof.
  intros Hlo; eexists; split; [reflexivity|].
  cbn [pc set_pc reg_a index_reg_x status sp memory set_sp set_status
       set_index_reg_x set_reg_a].
  rewrite word_of_bytes by exact Hlo.
  repeat split; reflexivity.
Qed.

(** Concrete instance of C9: reset vector 0x0600 written by [load]. *)
Definition reset_demo : CPU :=
  mkCPU 0x1234 0x55 0x10 0x66 0x77 0xFF
    (fun a => if a =? 0xFFFC then 0x00 else if a =? 0xFFFD then 0x06 else 0x42).

Lemma reset_spec_witness :
  0 <= memory reset_demo 0xFFFC < 256 /\
  exists s', reset reset_demo = Some s' /\
    pc s' = 0x0600 /\ reg_a s' = 0 /\ index_reg_x s' = 0 /\ status s' = 0 /\
    sp s' = 0xFD /\ memory s' = memory reset_demo.
Proof.
  split; [simpl; lia|].
  destruct (reset_spec reset_demo ltac:(simpl; lia)) as (s' & H1 & H2 & H3).
  exists s'; split; [exact H1|]; split; [rewrite H2; reflexivity|exact H3].
Defined.

(** ** C6: branches and the [pc_state] check *)

(** BEQ (0xF0) at 0x0600 with displacement 0xFF (-1) and Zero set. *)
Definition beq_demo : CPU :=
  mkCPU 0x0600 0 0xFD 0 0 0x02
    (fun a => if a =? 0x0600 then 0xF0 else if a =? 0x0601 then 0xFF else 0).

(** Claim C6: a taken BEQ at 0x0600 with displacement -1 targets
    (0x0600 + 2) - 1 = 0x0601, which equals [pc_state]; the loop then takes
    the branch for a non-jump and adds [len - 1] = 1, so one step ends at
    0x0602. *)
Theorem branch_minus_one_advanced :
  get_bit (status beq_demo) STATUS_BIT_Z = true /\
  exists s', step noop_callback tt beq_demo = Continue tt s' /\ pc s' = 0x0602.
Proof. split; [reflexivity|]; eexists; split; reflexivity. Qed.

(** ** C8: how [run_with_callback] ends *)

(** TAY (0xA8), an official opcode of the table with no arm in the match. *)
Definition tay_demo : CPU :=
  mkCPU 0x0600 0x07 0xFD 0 0 0 (fun a => if a =? 0x0600 then 0xA8 else 0).

(** Table opcodes that have no arm in the [match code] of
    [run_with_callback]: TAY, TSX, TXS, TYA and CLV.  They fall through to
    the [_ => todo!()] arm. *)
Definition unhandled_codes : list Z := [0xA8; 0xBA; 0x9A; 0x98; 0xB8].

(** Claim C8 fails: besides the hook error, the decode fault and the halt
    opcode, the loop has another way to end.  For every callback that
    returns [Ok] and every state whose fetched opcode is one of the table
    opcodes TAY, TSX, TXS, TYA or CLV, the opcode is found in the table but
    its execution reaches [todo!()]: the run ends in a panic, with neither
    an error result nor [Ok]. *)
Theorem run_with_callback_todo_panics {H : Type} (fuel : nat)
    (callback : H -> CPU -> H * CPU * io_result) (h h1 : H) (s s1 : CPU) (c : Z) :
  In c unhandled_codes ->
  callback h s = (h1, s1, IoOk) ->
  mem_read s1 (pc s1) = Some c -> pc s1 + 1 <= 65535 ->
  OPCODES_MAP c <> None /\ run_with_callback (S fuel) callback h s = RunPanicked.
Proof.
  intros Hc Hcb Hrd Hp.
  cbn [run_with_callback]; unfold step; rewrite Hcb, Hrd; unfold checked_add16.
  replace (pc s1 + 1 <=? 65535) with true by (symmetry; apply Z.leb_le; lia).
  destruct Hc as [<-|[<-|[<-|[<-|[<-|[]]]]]]; split; (discriminate || reflexivity).
Qed.

(** [LDA #$05; BRK] loaded at 0x0600. *)
Definition lda_brk_demo : CPU :=
  mkCPU 0x0600 0 0xFD 0 0 0
    (fun a => if a =? 0x0600 then 0xA9 else if a =? 0x0601 then 0x05 else 0).

Lemma run_with_callback_todo_panics_witness :
  OPCODES_MAP 0xA8 <> None /\ run_with_callback 1 noop_callback tt tay_demo = RunPanicked.
Proof.
  apply (run_with_callback_todo_panics 0 noop_callback tt tt tay_demo tay_demo 0xA8);
    first [reflexivity | simpl; tauto | simpl; lia].
Defined.

(** ** C10: [run] unwraps the error *)

(** Claim C10.  When the byte fetched at [pc] has no entry in the opcode
    table, [run] (the callback-free entry point) panics on [unwrap] instead
    of returning: it has no result at all. *)
Theorem run_panics_on_decode_fault (fuel : nat) (s : CPU) (c : Z) :
  mem_read s (pc s) = Some c -> OPCODES_MAP c = None ->
  run (S fuel) s = RunPanicked.
Proof.
  intros Hrd Hmap.
  assert (Hpc : pc s + 1 <= 65535).
  { unfold mem_read in Hrd; destruct (Z.ltb_spec (pc s) MEMORY_LEN);
      [unfold MEMORY_LEN in *; lia | discriminate]. }
  unfold run; simpl; unfold step, noop_callback; rewrite Hrd.
  unfold checked_add16; replace (pc s + 1 <=? 65535) with true
    by (symmetry; apply Z.leb_le; exact Hpc).
  cbn [set_pc pc]; rewrite Hmap; reflexivity.
Qed.

(** Byte 0x02 (no official opcode) at 0x0600. *)
Definition undocumented_demo : CPU :=
  mkCPU 0x0600 0 0xFD 0 0 0 (fun a => if a =? 0x0600 then 0x02 else 0).

Lemma run_panics_on_decode_fault_witness :
  mem_read undocumented_demo (pc undocumented_demo) = Some 0x02 /\
  OPCODES_MAP 0x02 = None /\
  run 1 undocumented_demo = RunPanicked.
Proof.
  split; [reflexivity|]; split; [reflexivity|].
  apply (run_panics_on_decode_fault 0 undocumented_demo 0x02); reflexivity.
Defined.

(** * Further properties of the core *)

(** ** Well-formed states: 8-bit registers, 16-bit [pc], byte memory *)

Definition is_byte (x : Z) : Prop := 0 <= x < 256.

Definition cpu_wf (s : CPU) : Prop :=
  0 <= pc s < 65536 /\ is_byte (reg_a s) /\ is_byte (sp s) /\
  is_byte (index_reg_x s) /\ is_byte (index_reg_y s) /\ is_byte (status s) /\
  forall a, is_byte (memory s a).

Lemma byte_bits (x : Z) :
  is_byte x <-> 0 <= x /\ forall n, 8 <= n -> Z.testbit x n = false.
Proof.
  unfold is_byte; split.
  - intros Hx; split; [lia|]; intros n Hn.
    rewrite <- (Z.mod_small x (2 ^ 8)) by (change (2 ^ 8) with 256; lia).
    apply Z.mod_pow2_bits_high; lia.
  - intros [Hx Hb].
    assert (E : x mod 2 ^ 8 = x).
    { apply Z.bits_inj'; intros n Hn.
      destruct (Z.lt_ge_cases n 8).
      - apply Z.mod_pow2_bits_low; lia.
      - rewrite Z.mod_pow2_bits_high by lia; symmetry; apply Hb; lia. }
    rewrite <- E; split; [apply Z.mod_pos_bound|apply Z.mod_pos_bound]; lia.
Qed.

Lemma byte_land (a b : Z) : is_byte a -> is_byte b -> is_byte (Z.land a b).
Proof.
  rewrite !byte_bits; intros [Ha Ha'] [Hb Hb']; split.
  - apply Z.land_nonneg; auto.
  - intros n Hn; rewrite Z.land_spec, Ha'; auto.
Qed.

Lemma byte_lor (a b : Z) : is_byte a -> is_byte b -> is_byte (Z.lor a b).
Proof.
  rewrite !byte_bits; intros [Ha Ha'] [Hb Hb']; split.
  - apply Z.lor_nonneg; auto.
  - intros n Hn; rewrite Z.lor_spec, Ha', Hb'; auto.
Qed.

Lemma byte_lxor (a b : Z) : is_byte a -> is_byte b -> is_byte (Z.lxor a b).
Proof.
  rewrite !byte_bits; intros [Ha Ha'] [Hb Hb']; split.
  - apply Z.lxor_nonneg; split; auto.
  - intros n Hn; rewrite Z.lxor_spec, Ha', Hb'; auto.
Qed.

Lemma byte_set_bit (v i : Z) (b : bool) :
  is_byte v -> 0 <= i < 8 -> is_byte (set_bit v i b).
Proof.
  intros Hv Hi; unfold set_bit; destruct b.
  - rewrite Z.setbit_spec'; apply byte_lor; [exact Hv|].
    unfold is_byte; split; [apply Z.pow_nonneg; lia|].
    apply Z.le_lt_trans with (2 ^ 7); [apply Z.pow_le_mono_r|]; lia.
  - unfold Z.clearbit; apply byte_bits in Hv as [Hv Hv']; apply byte_bits.
    split.
    + apply Z.ldiff_nonneg; auto.
    + intros n Hn; rewrite Z.ldiff_spec, Hv'; auto.
Qed.

Lemma byte_mod (x : Z) : is_byte (x mod 256).
Proof. unfold is_byte; apply Z.mod_pos_bound; lia. Qed.

Lemma byte_shl8 (v : Z) : is_byte (shl8 v).
Proof. unfold shl8; rewrite land_0xFF; apply byte_mod. Qed.

Lemma byte_shr8 (v : Z) : is_byte v -> is_byte (shr8 v).
Proof.
  unfold shr8, is_byte; intros Hv; rewrite Z.shiftr_div_pow2 by lia.
  change (2 ^ 1) with 2; split; [apply Z.div_pos|apply Z.div_lt_upper_bound]; lia.
Qed.

Lemma byte_land_0xFF (x : Z) : is_byte (Z.land x 0xFF).
Proof. rewrite land_0xFF; apply byte_mod. Qed.

Lemma byte_high (d : Z) : is_byte (Z.shiftr (Z.land d 0xFF00) 8).
Proof.
  apply byte_bits; split.
  - apply Z.shiftr_nonneg, Z.land_nonneg; lia.
  - intros n Hn; rewrite Z.shiftr_spec, Z.land_spec by lia.
    change 0xFF00 with (255 * 2 ^ 8).
    rewrite (Z.mul_pow2_bits 255 8) by lia.
    replace (n + 8 - 8) with n by lia.
    assert (Hb : is_byte 255) by (unfold is_byte; lia).
    apply byte_bits in Hb as [_ Hb]; rewrite Hb by lia; apply andb_false_r.
Qed.

Lemma word_bytes (hi lo : Z) :
  is_byte hi -> is_byte lo -> 0 <= Z.lor (Z.shiftl hi 8) lo < 65536.
Proof. unfold is_byte; intros Hh Hl; rewrite word_of_bytes by exact Hl; lia. Qed.

Lemma word_mod (x : Z) : 0 <= x mod 65536 < 65536.
Proof. apply Z.mod_pos_bound; lia. Qed.

Lemma checked_add16_word (a b c : Z) :
  0 <= a -> 0 <= b -> checked_add16 a b = Some c -> 0 <= c < 65536.
Proof.
  unfold checked_add16; intros Ha Hb H.
  destruct (Z.leb_spec (a + b) 65535); [injection H as <-; lia | discriminate].
Qed.

Create HintDb wf.

Section WfLemmas.
Variable s : CPU.
Hypothesis Hs : cpu_wf s.

Lemma wf_pc : 0 <= pc s < 65536.  Proof. apply Hs. Qed.
Lemma wf_reg_a : is_byte (reg_a s). Proof. apply Hs. Qed.
Lemma wf_sp : is_byte (sp s). Proof. apply Hs. Qed.
Lemma wf_x : is_byte (index_reg_x s). Proof. apply Hs. Qed.
Lemma wf_y : is_byte (index_reg_y s). Proof. apply Hs. Qed.
Lemma wf_status : is_byte (status s). Proof. apply Hs. Qed.
Lemma wf_memory (a : Z) : is_byte (memory s a). Proof. apply Hs. Qed.

Lemma wf_set_pc (v : Z) : 0 <= v < 65536 -> cpu_wf (set_pc s v).
Proof. unfold cpu_wf in *; simpl; tauto. Qed.
Lemma wf_set_reg_a (v : Z) : is_byte v -> cpu_wf (set_reg_a s v).
Proof. unfold cpu_wf in *; simpl; tauto. Qed.
Lemma wf_set_sp (v : Z) : is_byte v -> cpu_wf (set_sp s v).
Proof. unfold cpu_wf in *; simpl; tauto. Qed.
Lemma wf_set_x (v : Z) : is_byte v -> cpu_wf (set_index_reg_x s v).
Proof. unfold cpu_wf in *; simpl; tauto. Qed.
Lemma wf_set_y (v : Z) : is_byte v -> cpu_wf (set_index_reg_y s v).
Proof. unfold cpu_wf in *; simpl; tauto. Qed.
Lemma wf_set_status (v : Z) : is_byte v -> cpu_wf (set_status s v).
Proof. unfold cpu_wf in *; simpl; tauto. Qed.

Lemma wf_set_status_bit (i : Z) (b : bool) :
  0 <= i < 8 -> cpu_wf (set_status_bit s i b).
Proof. intros; apply wf_set_status, byte_set_bit; [apply wf_status|assumption]. Qed.

Lemma mem_read_byte (a v : Z) : mem_read s a = Some v -> is_byte v.
Proof.
  unfold mem_read; destruct (a <? MEMORY_LEN); [|discriminate].
  injection 1 as <-; apply wf_memory.
Qed.

Lemma mem_read_u16_word (a v : Z) : mem_read_u16 s a = Some v -> 0 <= v < 65536.
Proof.
  unfold mem_read_u16.
  destruct (mem_read s a) as [lo|] eqn:Hlo; cbn [bind]; [|discriminate].
  destruct (checked_add16 a 1) as [a1|]; cbn [bind]; [|discriminate].
  destruct (mem_read s a1) as [hi|] eqn:Hhi; cbn [bind]; [|discriminate].
  injection 1 as <-; apply word_bytes; eapply mem_read_byte; eassumption.
Qed.

Lemma mem_write_wf (a d : Z) (s' : CPU) :
  is_byte d -> mem_write s a d = Some s' -> cpu_wf s'.
Proof.
  unfold mem_write; intros Hd; destruct (a <? MEMORY_LEN); [|discriminate].
  injection 1 as <-; unfold cpu_wf in *; simpl.
  intuition; destruct (a0 =? a); auto.
Qed.
End WfLemmas.

Lemma wf_update_zn (s : CPU) (reg : Z) :
  cpu_wf s -> cpu_wf (update_zero_and_negative_flags s reg).
Proof.
  intros Hs; unfold update_zero_and_negative_flags.
  apply wf_set_status_bit; [apply wf_set_status_bit|]; unfold STATUS_BIT_Z, STATUS_BIT_N;
    auto; lia.
Qed.

Global Hint Resolve wf_pc wf_reg_a wf_sp wf_x wf_y wf_status wf_memory
  wf_set_pc wf_set_reg_a wf_set_sp wf_set_x wf_set_y wf_set_status
  wf_set_status_bit wf_update_zn mem_read_byte mem_read_u16_word
  byte_land byte_lor byte_lxor byte_set_bit byte_mod byte_shl8 byte_shr8
  byte_land_0xFF byte_high word_bytes word_mod : wf.
Global Hint Extern 1 (0 <= _ < 8) =>
  unfold STATUS_BIT_C, STATUS_BIT_Z, STATUS_BIT_I, STATUS_BIT_D,
         STATUS_BIT_V, STATUS_BIT_N, MSB; lia : wf.
Global Hint Extern 1 (0 <= _) => lia : wf.

(** Peel the [bind]s of a hypothesis [f s ... = Some s']. *)
Ltac inv_bind :=
  repeat match goal with
  | H : bind ?m _ = Some _ |- _ =>
      let E := fresh "E" in
      destruct m eqn:E; cbn [bind] in H; [|discriminate H]
  | H : Some _ = Some _ |- _ => injection H as H; subst
  | p : (CPU * Z)%type |- _ => destruct p
  end.

Lemma of_opt_next (r : option CPU) (s' : CPU) : of_opt r = Next s' -> r = Some s'.
Proof. destruct r; simpl; congruence. Qed.

Lemma then_advance_next (r : option CPU) (op : OpCode) (s' : CPU) :
  then_advance r op = Next s' -> exists s0, r = Some s0 /\ advance s0 op = Some s'.
Proof.
  unfold then_advance; destruct r as [s0|]; cbn [bind]; [|discriminate].
  intros H; exists s0; split; [reflexivity|apply of_opt_next, H].
Qed.

(** ** 16-bit values: splitting into bytes and back *)

Fixpoint check_range (P : Z -> bool) (k : nat) (z : Z) : bool :=
  match k with
  | O => true
  | S k' => P z && check_range P k' (z + 1)
  end.

Lemma check_range_ok (P : Z -> bool) (k : nat) (z : Z) :
  check_range P k z = true -> forall v, z <= v < z + Z.of_nat k -> P v = true.
Proof.
  revert z; induction k as [|k IH]; intros z H v Hv; [lia|].
  cbn [check_range] in H; apply andb_prop in H as [H1 H2].
  destruct (Z.eq_dec v z) as [->|Hne]; [exact H1|].
  apply (IH (z + 1) H2); lia.
Qed.

(** [(hi << 8) | lo] of the two bytes [stack_push_u16] takes apart. *)
Lemma word_split_join (d : Z) :
  0 <= d < 65536 ->
  Z.lor (Z.shiftl (Z.shiftr (Z.land d 0xFF00) 8) 8) (Z.land d 0x00FF) = d.
Proof.
  intros Hd; apply Z.eqb_eq.
  refine (check_range_ok
            (fun d => Z.lor (Z.shiftl (Z.shiftr (Z.land d 0xFF00) 8) 8)
                            (Z.land d 0x00FF) =? d) 65536 0 _ d Hd).
  vm_compute; reflexivity.
Qed.

(** [mem_write_u16]'s two bytes, read back by [mem_read_u16]. *)
Lemma word_split_join' (d : Z) :
  0 <= d < 65536 ->
  Z.lor (Z.shiftl (Z.land (Z.shiftr d 8) 0xFF) 8) (Z.land d 0xFF) = d.
Proof.
  intros Hd; apply Z.eqb_eq.
  refine (check_range_ok
            (fun d => Z.lor (Z.shiftl (Z.land (Z.shiftr d 8) 0xFF) 8)
                            (Z.land d 0xFF) =? d) 65536 0 _ d Hd).
  vm_compute; reflexivity.
Qed.

(** Writing a 16-bit word with [mem_write_u16] and reading it back with
    [mem_read_u16] at the same address returns the word, for every address
    whose two bytes lie inside the 0xFFFF-byte array; the writes touch only
    those two bytes. *)
Theorem mem_write_read_u16 (s : CPU) (addr data : Z) :
  0 <= addr < 0xFFFE -> 0 <= data < 65536 ->
  exists s', mem_write_u16 s addr data = Some s' /\
    mem_read_u16 s' addr = Some data /\
    (forall a, a <> addr -> a <> addr + 1 -> memory s' a = memory s a).
Proof.
  intros Ha Hd; unfold mem_write_u16, mem_write.
  replace (addr <? MEMORY_LEN) with true
    by (symmetry; apply Z.ltb_lt; unfold MEMORY_LEN; lia).
  cbn [bind]; unfold checked_add16.
  replace (addr + 1 <=? 65535) with true by (symmetry; apply Z.leb_le; lia).
  cbn [bind].
  replace (addr + 1 <? MEMORY_LEN) with true
    by (symmetry; apply Z.ltb_lt; unfold MEMORY_LEN; lia).
  eexists; split; [reflexivity|]; split.
  - unfold mem_read_u16, mem_read, checked_add16.
    replace (addr <? MEMORY_LEN) with true
      by (symmetry; apply Z.ltb_lt; unfold MEMORY_LEN; lia).
    cbn [bind].
    replace (addr + 1 <=? 65535) with true by (symmetry; apply Z.leb_le; lia).
    cbn [bind].
    replace (addr + 1 <? MEMORY_LEN) with true
      by (symmetry; apply Z.ltb_lt; unfold MEMORY_LEN; lia).
    cbn [bind memory set_memory]; rewrite Z.eqb_refl.
    replace (addr =? addr + 1) with false by (symmetry; apply Z.eqb_neq; lia).
    rewrite Z.eqb_refl; f_equal; apply word_split_join'; exact Hd.
  - intros a Hne1 Hne2; cbn [memory set_memory].
    replace (a =? addr + 1) with false by (symmetry; apply Z.eqb_neq; lia).
    replace (a =? addr) with false by (symmetry; apply Z.eqb_neq; lia).
    reflexivity.
Qed.

Lemma mem_write_read_u16_witness :
  0 <= 0xFFFC < 0xFFFE /\ 0 <= 0x0600 < 65536 /\
  exists s', mem_write_u16 new 0xFFFC 0x0600 = Some s' /\
    mem_read_u16 s' 0xFFFC = Some 0x0600 /\
    (forall a, a <> 0xFFFC -> a <> 0xFFFC + 1 -> memory s' a = memory new a).
Proof.
  split; [lia|]; split; [lia|].
  apply mem_write_read_u16; lia.
Defined.

(** ** The 16-bit stack *)

Lemma stack_pop_u16_set_pc (s : CPU) (v : Z) :
  stack_pop_u16 (set_pc s v) =
  match stack_pop_u16 s with
  | Some (s', w) => Some (set_pc s' v, w)
  | None => None
  end.
Proof.
  unfold stack_pop_u16, stack_pop, mem_read, set_sp, set_pc; cbn [bind sp memory].
  destruct (STACK_BASE + wrapping_add8 (sp s) 1 <? MEMORY_LEN);
    cbn [bind sp memory]; [|reflexivity].
  destruct (STACK_BASE + wrapping_add8 (wrapping_add8 (sp s) 1) 1 <? MEMORY_LEN);
    reflexivity.
Qed.

Lemma stack_push_pop_u16 (s : CPU) (data : Z) :
  0 <= sp s < 256 -> 0 <= data < 65536 ->
  exists s1 s2, stack_push_u16 s data = Some s1 /\
    stack_pop_u16 s1 = Some (s2, data) /\ sp s2 = sp s.
Proof.
  intros Hsp Hd.
  set (hi := Z.shiftr (Z.land data 0xFF00) 8); set (lo := Z.land data 0x00FF).
  set (sp1 := wrapping_sub8 (sp s) 1).
  assert (Hsp1 : 0 <= sp1 < 256) by (apply Z.mod_pos_bound; lia).
  assert (Hne : sp1 <> sp s).
  { unfold sp1, wrapping_sub8; intros E.
    destruct (Z.eq_dec (sp s) 0) as [E0|E0].
    - rewrite E0 in E; discriminate.
    - rewrite Z.mod_small in E; lia. }
  unfold stack_push_u16, stack_push, mem_write.
  replace (STACK_BASE + sp s <? MEMORY_LEN) with true
    by (symmetry; apply Z.ltb_lt; unfold STACK_BASE, MEMORY_LEN; lia).
  cbn [bind sp set_sp set_memory].
  fold sp1.
  replace (STACK_BASE + sp1 <? MEMORY_LEN) with true
    by (symmetry; apply Z.ltb_lt; unfold STACK_BASE, MEMORY_LEN; lia).
  cbn [bind]; do 2 eexists; split; [reflexivity|].
  unfold stack_pop_u16, stack_pop, mem_read; cbn [sp set_sp set_memory memory].
  assert (E1 : wrapping_add8 (wrapping_sub8 sp1 1) 1 = sp1)
    by (apply sp_wrap_roundtrip; exact Hsp1).
  rewrite E1.
  replace (STACK_BASE + sp1 <? MEMORY_LEN) with true
    by (symmetry; apply Z.ltb_lt; unfold STACK_BASE, MEMORY_LEN; lia).
  cbn [bind sp set_sp memory]; rewrite Z.eqb_refl.
  assert (E2 : wrapping_add8 sp1 1 = sp s) by (apply sp_wrap_roundtrip; exact Hsp).
  rewrite E2.
  replace (STACK_BASE + sp s <? MEMORY_LEN) with true
    by (symmetry; apply Z.ltb_lt; unfold STACK_BASE, MEMORY_LEN; lia).
  cbn [bind]; unfold set_sp, set_memory; cbn [memory sp].
  replace (STACK_BASE + sp s =? STACK_BASE + sp1) with false
    by (symmetry; apply Z.eqb_neq; lia).
  rewrite Z.eqb_refl, (word_split_join data Hd).
  split; reflexivity.
Qed.

(** [stack_push_u16] then [stack_pop_u16] returns the pushed word and the
    stack pointer, for every 8-bit stack pointer (wrapping included) and
    every 16-bit word. *)
Theorem stack_u16_roundtrip (s : CPU) (data : Z) :
  0 <= sp s < 256 -> 0 <= data < 65536 ->
  exists s1 s2, stack_push_u16 s data = Some s1 /\
    stack_pop_u16 s1 = Some (s2, data) /\ sp s2 = sp s.
Proof. exact (stack_push_pop_u16 s data). Qed.

Lemma stack_u16_roundtrip_witness :
  0 <= sp stack_demo < 256 /\ 0 <= 0x1234 < 65536 /\
  exists s1 s2, stack_push_u16 stack_demo 0x1234 = Some s1 /\
    stack_pop_u16 s1 = Some (s2, 0x1234) /\ sp s2 = sp stack_demo.
Proof.
  split; [simpl; lia|]; split; [lia|].
  apply stack_u16_roundtrip; simpl; lia.
Defined.

(** ** Subroutines *)

(** JSR, run with the program counter on its operand (as the loop leaves
    it after the fetch), then RTS, resumes at the byte after the 3-byte JSR
    instruction with the stack pointer back where it was. *)
Theorem jsr_rts_returns (s s1 : CPU) :
  0 <= sp s < 256 -> 0 <= pc s -> jsr s = Some s1 ->
  exists s2, rts s1 = Some s2 /\ pc s2 = pc s + 2 /\ sp s2 = sp s.
Proof.
  intros Hsp Hpc H; unfold jsr, checked_add16, checked_sub16 in H.
  destruct (pc s + 2 <=? 65535) eqn:E1; cbn [bind] in H; [|discriminate].
  destruct (0 <=? pc s + 2 - 1) eqn:E2; cbn [bind] in H; [|discriminate].
  apply Z.leb_le in E1.
  destruct (stack_push_pop_u16 s (pc s + 2 - 1) Hsp ltac:(lia))
    as (sA & sB & Hpush & Hpop & HspB).
  rewrite Hpush in H; cbn [bind] in H.
  destruct (mem_read_u16 sA (pc sA)) as [t|]; cbn [bind] in H; [|discriminate].
  injection H as <-.
  unfold rts; rewrite stack_pop_u16_set_pc, Hpop; cbn [bind].
  unfold checked_add16.
  replace (pc s + 2 - 1 + 1 <=? 65535) with true by (symmetry; apply Z.leb_le; lia).
  cbn [bind]; eexists; split; [reflexivity|].
  unfold set_pc; cbn [pc sp]; split; lia.
Qed.

Definition jsr_demo : CPU :=
  mkCPU 0x0601 0 0xFD 0 0 0
    (fun a => if a =? 0x0601 then 0x00 else if a =? 0x0602 then 0x07 else 0).

Lemma jsr_rts_returns_witness :
  exists s1, jsr jsr_demo = Some s1 /\
    exists s2, rts s1 = Some s2 /\ pc s2 = pc jsr_demo + 2 /\ sp s2 = sp jsr_demo.
Proof.
  eexists; split; [reflexivity|].
  apply jsr_rts_returns; [simpl; lia | simpl; lia | reflexivity].
Defined.

(** ** The program counter after one step *)

Lemma mem_write_pc (s s' : CPU) (a d : Z) : mem_write s a d = Some s' -> pc s' = pc s.
Proof.
  unfold mem_write; destruct (a <? MEMORY_LEN); [|discriminate].
  intros H; injection H as <-; reflexivity.
Qed.

Lemma stack_push_pc (s s' : CPU) (d : Z) : stack_push s d = Some s' -> pc s' = pc s.
Proof.
  unfold stack_push; intros H; inv_bind.
  apply mem_write_pc in E; exact E.
Qed.

Lemma stack_pop_pc (s s' : CPU) (v : Z) : stack_pop s = Some (s', v) -> pc s' = pc s.
Proof. unfold stack_pop; intros H; inv_bind; reflexivity. Qed.

Ltac pc_solve :=
  repeat match goal with
  | E : mem_write _ _ _ = Some _ |- _ => apply mem_write_pc in E
  | E : stack_push _ _ = Some _ |- _ => apply stack_push_pc in E
  | E : stack_pop _ = Some (_, _) |- _ => apply stack_pop_pc in E
  end;
  cbn [pc set_pc set_reg_a set_sp set_index_reg_x set_index_reg_y set_status
       set_status_bit set_memory update_zero_and_negative_flags] in *;
  congruence.

Ltac pc_instr f :=
  let Hf := fresh "Hf" in
  intros Hf; unfold f in Hf;
  repeat match type of Hf with context [if ?b then _ else _] => destruct b end;
  inv_bind; pc_solve.

Lemma lda_pc s m s' : lda s m = Some s' -> pc s' = pc s.
Proof. pc_instr lda. Qed.
Lemma ldx_pc s m s' : ldx s m = Some s' -> pc s' = pc s.
Proof. pc_instr ldx. Qed.
Lemma ldy_pc s m s' : ldy s m = Some s' -> pc s' = pc s.
Proof. pc_instr ldy. Qed.
Lemma sta_pc s m s' : sta s m = Some s' -> pc s' = pc s.
Proof. pc_instr sta. Qed.
Lemma stx_pc s m s' : stx s m = Some s' -> pc s' = pc s.
Proof. pc_instr stx. Qed.
Lemma sty_pc s m s' : sty s m = Some s' -> pc s' = pc s.
Proof. pc_instr sty. Qed.
Lemma adc_pc s m s' : adc s m = Some s' -> pc s' = pc s.
Proof. pc_instr adc. Qed.
Lemma sbc_pc s m s' : sbc s m = Some s' -> pc s' = pc s.
Proof. pc_instr sbc. Qed.
Lemma and_pc s m s' : and s m = Some s' -> pc s' = pc s.
Proof. pc_instr and. Qed.
Lemma asl_accumulator_pc s s' : asl_accumulator s = Some s' -> pc s' = pc s.
Proof. pc_instr asl_accumulator. Qed.
Lemma asl_pc s m s' : asl s m = Some s' -> pc s' = pc s.
Proof. pc_instr asl. Qed.
Lemma lsr_accumulator_pc s s' : lsr_accumulator s = Some s' -> pc s' = pc s.
Proof. pc_instr lsr_accumulator. Qed.
Lemma lsr_pc s m s' : lsr s m = Some s' -> pc s' = pc s.
Proof. pc_instr lsr. Qed.
Lemma tax_pc s s' : tax s = Some s' -> pc s' = pc s.
Proof. pc_instr tax. Qed.
Lemma txa_pc s s' : txa s = Some s' -> pc s' = pc s.
Proof. pc_instr txa. Qed.
Lemma inx_pc s s' : inx s = Some s' -> pc s' = pc s.
Proof. pc_instr inx. Qed.
Lemma iny_pc s s' : iny s = Some s' -> pc s' = pc s.
Proof. pc_instr iny. Qed.
Lemma bit_pc s m s' : bit s m = Some s' -> pc s' = pc s.
Proof. pc_instr bit. Qed.
Lemma compare_with_pc s m r s' : compare_with s m r = Some s' -> pc s' = pc s.
Proof. pc_instr compare_with. Qed.
Lemma dec_pc s m s' : dec s m = Some s' -> pc s' = pc s.
Proof. pc_instr dec. Qed.
Lemma inc_pc s m s' : inc s m = Some s' -> pc s' = pc s.
Proof. pc_instr inc. Qed.
Lemma dex_pc s s' : dex s = Some s' -> pc s' = pc s.
Proof. pc_instr dex. Qed.
Lemma dey_pc s s' : dey s = Some s' -> pc s' = pc s.
Proof. pc_instr dey. Qed.
Lemma eor_pc s m s' : eor s m = Some s' -> pc s' = pc s.
Proof. pc_instr eor. Qed.
Lemma ora_pc s m s' : ora s m = Some s' -> pc s' = pc s.
Proof. pc_instr ora. Qed.
Lemma rol_accumulator_pc s s' : rol_accumulator s = Some s' -> pc s' = pc s.
Proof. pc_instr rol_accumulator. Qed.
Lemma rol_pc s m s' : rol s m = Some s' -> pc s' = pc s.
Proof. pc_instr rol. Qed.
Lemma ror_accumulator_pc s s' : ror_accumulator s = Some s' -> pc s' = pc s.
Proof. pc_instr ror_accumulator. Qed.
Lemma ror_pc s m s' : ror s m = Some s' -> pc s' = pc s.
Proof. pc_instr ror. Qed.

Create HintDb pc_ops.
Global Hint Resolve lda_pc ldx_pc ldy_pc sta_pc stx_pc sty_pc adc_pc sbc_pc and_pc
  asl_accumulator_pc asl_pc lsr_accumulator_pc lsr_pc tax_pc txa_pc inx_pc iny_pc
  bit_pc compare_with_pc dec_pc inc_pc dex_pc dey_pc eor_pc ora_pc
  rol_accumulator_pc rol_pc ror_accumulator_pc ror_pc stack_push_pc : pc_ops.

Lemma advance_pc (s s' : CPU) (op : OpCode) :
  advance s op = Some s' -> pc s' = pc s + (len op - 1).
Proof.
  unfold advance, checked_add16; destruct (_ <=? _); cbn [bind]; [|discriminate].
  intros H; injection H as <-; reflexivity.
Qed.

(** The opcodes whose arm may move the program counter itself: the
    branches, JSR, JMP absolute and indirect, RTI and RTS. *)
Definition control_codes : list Z :=
  [0x90; 0xb0; 0xf0; 0x30; 0xd0; 0x10; 0x50; 0x70; 0x20; 0x4c; 0x6c; 0x40; 0x60].

Lemma dispatch_pc (c : Z) (op : OpCode) (s s' : CPU) :
  one_of c control_codes = false -> dispatch c op s = Next s' ->
  pc s' = pc s \/ pc s' = pc s + (len op - 1).
Proof.
  intros Hc H; unfold dispatch, cmp, cpx, cpy in H.
  repeat match type of H with
         | context [if ?b then _ else _] => destruct b eqn:?
         end;
  try discriminate H;
  first
    [ match goal with
      | E : (c =? _) = true |- _ => apply Z.eqb_eq in E; subst c; discriminate Hc
      end
    | apply then_advance_next in H as (s0 & H0 & Hadv);
      apply advance_pc in Hadv; right;
      assert (pc s0 = pc s) by eauto with pc_ops; lia
    | apply of_opt_next in H; left;
      first [ solve [eauto with pc_ops] | inv_bind; pc_solve ]
    | injection H as <-; left; reflexivity ].
Qed.

(** The [pc_state] check of the loop: for every instruction that is not a
    branch, JSR, JMP, RTI or RTS, a step that goes on leaves the program
    counter exactly [opcode.len] bytes after the opcode, whether the arm
    advanced it itself or the check did. *)
Theorem step_advances_by_len {H : Type} (callback : H -> CPU -> H * CPU * io_result)
    (h h1 h' : H) (s s1 s' : CPU) (c : Z) (op : OpCode) :
  callback h s = (h1, s1, IoOk) -> mem_read s1 (pc s1) = Some c ->
  OPCODES_MAP c = Some op -> one_of c control_codes = false ->
  step callback h s = Continue h' s' -> pc s' = pc s1 + len op.
Proof.
  intros Hcb Hc Hop Hctl Hstep; unfold step in Hstep; rewrite Hcb, Hc in Hstep.
  destruct (checked_add16 (pc s1) 1) as [p1|] eqn:Ep; [|discriminate].
  rewrite Hop in Hstep.
  destruct (dispatch c op (set_pc s1 p1)) as [s3|s3|] eqn:Ed; try discriminate.
  unfold checked_add16 in Ep; destruct (_ <=? _); [|discriminate].
  injection Ep as <-.
  apply dispatch_pc in Ed; [|exact Hctl]; cbn [pc set_pc] in Ed, Hstep.
  destruct (pc s1 + 1 =? pc s3) eqn:Eq.
  - destruct (advance s3 op) as [s4|] eqn:Ea; [|discriminate].
    injection Hstep as <- <-; apply advance_pc in Ea; apply Z.eqb_eq in Eq; lia.
  - injection Hstep as <- <-; apply Z.eqb_neq in Eq; lia.
Qed.

Lemma step_advances_by_len_witness :
  exists s', step noop_callback tt lda_brk_demo = Continue tt s' /\
    pc s' = pc lda_brk_demo + len (mkOpCode 0xA9 2 Immediate).
Proof.
  eexists; split; [reflexivity|].
  apply (step_advances_by_len noop_callback tt tt tt lda_brk_demo lda_brk_demo _ 0xA9);
    reflexivity.
Defined.

(** ** Branches *)

(** The eight conditional branches of the 6502: opcode, status bit tested,
    and the value of that bit for which the branch is taken. *)
Definition branch_table : list (Z * Z * bool) :=
  [(0x90, STATUS_BIT_C, false); (0xb0, STATUS_BIT_C, true);
   (0xf0, STATUS_BIT_Z, true); (0x30, STATUS_BIT_N, true);
   (0xd0, STATUS_BIT_Z, false); (0x10, STATUS_BIT_N, false);
   (0x50, STATUS_BIT_V, false); (0x70, STATUS_BIT_V, true)].

Lemma branch_table_dispatch (k : nat) (c i : Z) (want : bool) (op : OpCode) (s : CPU) :
  nth_error branch_table k = Some (c, i, want) ->
  dispatch c op s = of_opt (branch s (Bool.eqb (flag s i) want)).
Proof.
  intros Hk.
  do 8 (destruct k as [|k];
        [injection Hk as <- <- <-;
         match goal with
         | |- _ = of_opt (branch s (Bool.eqb (flag s ?j) _)) =>
             unfold dispatch, flag; destruct (get_bit (status s) j); reflexivity
         end|]).
  destruct k; discriminate Hk.
Qed.

Lemma branch_table_op (k : nat) (c i : Z) (want : bool) :
  nth_error branch_table k = Some (c, i, want) ->
  exists op, OPCODES_MAP c = Some op /\ len op = 2.
Proof.
  intros Hk.
  do 8 (destruct k as [|k]; [injection Hk as <- <- <-; eexists; split; reflexivity|]).
  destruct k; discriminate Hk.
Qed.

Lemma branch_target (p d : Z) :
  0 <= p -> p + 2 <= 65535 -> 0 <= d < 256 ->
  wrapping_add16 (wrapping_add16 (p + 1) 1) (i8_as_u16 (as_i8 d))
  = (p + 2 + as_i8 d) mod 65536.
Proof.
  intros Hp Hp2 Hd; unfold wrapping_add16, i8_as_u16.
  rewrite (Z.mod_small (p + 1 + 1)) by lia.
  rewrite Zplus_mod_idemp_r; f_equal; lia.
Qed.

Lemma branch_target_self (p d : Z) :
  0 <= p -> p + 2 <= 65535 -> 0 <= d < 256 ->
  (p + 1 =? (p + 2 + as_i8 d) mod 65536) = (d =? 0xFF).
Proof.
  intros Hp Hp2 Hd; rewrite Z.eqb_sym; unfold as_i8.
  destruct (d <? 128) eqn:Ed; [apply Z.ltb_lt in Ed|apply Z.ltb_ge in Ed].
  - replace (d =? 0xFF) with false by (symmetry; apply Z.eqb_neq; lia).
    apply Z.eqb_neq; intros E.
    destruct (Z.le_gt_cases 65536 (p + 2 + d)).
    + rewrite Z.mod_eq in E by lia.
      assert ((p + 2 + d) / 65536 = 1) by (symmetry; apply Z.div_unique with (p + 2 + d - 65536); lia).
      lia.
    + rewrite Z.mod_small in E by lia; lia.
  - destruct (Z.eq_dec d 0xFF) as [->|Hne].
    + rewrite Z.eqb_refl; apply Z.eqb_eq.
      rewrite Z.mod_small; lia.
    + replace (d =? 0xFF) with false by (symmetry; apply Z.eqb_neq; lia).
      apply Z.eqb_neq; intros E.
      destruct (Z.le_gt_cases 0 (p + 2 + (d - 256))).
      * rewrite Z.mod_small in E by lia; lia.
      * rewrite Z.mod_eq in E by lia.
        assert ((p + 2 + (d - 256)) / 65536 = -1)
          by (symmetry; apply Z.div_unique with (p + 2 + (d - 256) + 65536); lia).
        lia.
Qed.

(** One step over a conditional branch whose displacement byte is [d]: when
    the tested flag has the wanted value the program counter moves to
    [pc + 2 + d] (as a signed byte, modulo 2^16), otherwise it goes to the
    next instruction at [pc + 2]; a taken branch with displacement -1
    (0xFF) also ends at [pc + 2], the [pc_state] check then adds the
    operand length.  Nothing but the program counter changes. *)
Theorem step_branch {H : Type} (callback : H -> CPU -> H * CPU * io_result)
    (h h1 : H) (s s1 : CPU) (k : nat) (c i : Z) (want : bool) (d : Z) :
  nth_error branch_table k = Some (c, i, want) ->
  callback h s = (h1, s1, IoOk) ->
  0 <= pc s1 -> pc s1 + 2 <= 65535 ->
  mem_read s1 (pc s1) = Some c -> mem_read s1 (pc s1 + 1) = Some d -> 0 <= d < 256 ->
  step callback h s =
    Continue h1 (set_pc s1
      (if Bool.eqb (flag s1 i) want && negb (d =? 0xFF)
       then (pc s1 + 2 + as_i8 d) mod 65536 else pc s1 + 2)).
Proof.
  intros Hk Hcb Hp Hp2 Hc Hd Hdb.
  destruct (branch_table_op k c i want Hk) as (op & Hop & Hlen).
  unfold step; rewrite Hcb, Hc; unfold checked_add16 at 1.
  replace (pc s1 + 1 <=? 65535) with true by (symmetry; apply Z.leb_le; lia).
  rewrite Hop, (branch_table_dispatch k c i want op _ Hk).
  change (flag (set_pc s1 (pc s1 + 1)) i) with (flag s1 i).
  destruct (Bool.eqb (flag s1 i) want); cbn [andb negb]; unfold branch.
  - change (mem_read (set_pc s1 (pc s1 + 1)) (pc (set_pc s1 (pc s1 + 1))))
      with (mem_read s1 (pc s1 + 1)).
    rewrite Hd; cbn [bind of_opt]; change (pc (set_pc s1 (pc s1 + 1))) with (pc s1 + 1).
    rewrite (branch_target (pc s1) d Hp Hp2 Hdb).
    change (pc (set_pc (set_pc s1 (pc s1 + 1)) ((pc s1 + 2 + as_i8 d) mod 65536)))
      with ((pc s1 + 2 + as_i8 d) mod 65536).
    rewrite (branch_target_self (pc s1) d Hp Hp2 Hdb).
    destruct (d =? 0xFF) eqn:Eff; cbn [negb].
    + apply Z.eqb_eq in Eff; subst d.
      replace ((pc s1 + 2 + as_i8 0xFF) mod 65536) with (pc s1 + 1)
        by (change (as_i8 0xFF) with (-1); rewrite Z.mod_small; lia).
      unfold advance, checked_add16; rewrite Hlen; cbn [pc set_pc].
      replace (pc s1 + 1 + (2 - 1) <=? 65535) with true
        by (symmetry; apply Z.leb_le; lia).
      cbn [bind]; replace (pc s1 + 1 + (2 - 1)) with (pc s1 + 2) by lia.
      reflexivity.
    + reflexivity.
  - cbn [of_opt pc set_pc]; rewrite Z.eqb_refl.
    unfold advance, checked_add16; rewrite Hlen; cbn [pc set_pc].
    replace (pc s1 + 1 + (2 - 1) <=? 65535) with true by (symmetry; apply Z.leb_le; lia).
    cbn [bind]; replace (pc s1 + 1 + (2 - 1)) with (pc s1 + 2) by lia.
    reflexivity.
Qed.

Definition bne_demo : CPU :=
  mkCPU 0x0600 0 0xFD 0 0 0
    (fun a => if a =? 0x0600 then 0xD0 else if a =? 0x0601 then 0xFB else 0).

Lemma step_branch_witness :
  step noop_callback tt bne_demo =
    Continue tt (set_pc bne_demo
      (if Bool.eqb (flag bne_demo STATUS_BIT_Z) false && negb (0xFB =? 0xFF)
       then (pc bne_demo + 2 + as_i8 0xFB) mod 65536 else pc bne_demo + 2)).
Proof.
  apply (step_branch noop_callback tt tt bne_demo bne_demo 4 0xd0 STATUS_BIT_Z false 0xFB);
    first [reflexivity | simpl; lia].
Defined.

(** ** Rotations *)

(** 8-bit rotations by one place, carry not involved. *)
Definition rotl8 (v : Z) : Z := Z.land (Z.lor (Z.shiftl v 1) (Z.shiftr v 7)) 0xFF.
Definition rotr8 (v : Z) : Z := Z.land (Z.lor (Z.shiftr v 1) (Z.shiftl v 7)) 0xFF.

Lemma rol_byte (v : Z) : 0 <= v < 256 ->
  set_bit (shl8 v) 0 (get_bit v MSB) = rotl8 v.
Proof.
  intros Hv; apply Z.eqb_eq.
  refine (check_range_ok (fun v => set_bit (shl8 v) 0 (get_bit v MSB) =? rotl8 v)
            256 0 _ v Hv).
  vm_compute; reflexivity.
Qed.

Lemma ror_byte (v : Z) : 0 <= v < 256 ->
  set_bit (shr8 v) MSB (get_bit v 0) = rotr8 v.
Proof.
  intros Hv; apply Z.eqb_eq.
  refine (check_range_ok (fun v => set_bit (shr8 v) MSB (get_bit v 0) =? rotr8 v)
            256 0 _ v Hv).
  vm_compute; reflexivity.
Qed.

Lemma rot_inverse (v : Z) : 0 <= v < 256 ->
  rotr8 (rotl8 v) = v /\ rotl8 (rotr8 v) = v /\
  0 <= rotl8 v < 256 /\ 0 <= rotr8 v < 256.
Proof.
  intros Hv.
  pose (P := fun v => (rotr8 (rotl8 v) =? v) && (rotl8 (rotr8 v) =? v) &&
                      (0 <=? rotl8 v) && (rotl8 v <? 256) &&
                      (0 <=? rotr8 v) && (rotr8 v <? 256)).
  assert (H : P v = true).
  { refine (check_range_ok P 256 0 _ v Hv); vm_compute; reflexivity. }
  unfold P in H; repeat rewrite andb_true_iff in H.
  destruct H as [[[[[H1 H2] H3] H4] H5] H6].
  apply Z.eqb_eq in H1, H2; apply Z.leb_le in H3, H5; apply Z.ltb_lt in H4, H6.
  repeat split; assumption.
Qed.

(** On the accumulator, ROL and ROR are the 8-bit rotations left and right
    (bit 7 goes round to bit 0 and back, the incoming Carry is not used),
    and each undoes the other for every accumulator value. *)
Theorem rotate_accumulator_inverse (s : CPU) :
  0 <= reg_a s < 256 ->
  (exists s1 s2, rol_accumulator s = Some s1 /\ ror_accumulator s1 = Some s2 /\
     reg_a s1 = rotl8 (reg_a s) /\ reg_a s2 = reg_a s) /\
  (exists s1 s2, ror_accumulator s = Some s1 /\ rol_accumulator s1 = Some s2 /\
     reg_a s1 = rotr8 (reg_a s) /\ reg_a s2 = reg_a s).
Proof.
  intros Ha; destruct (rot_inverse (reg_a s) Ha) as (Hrl & Hlr & Hl & Hr).
  split; do 2 eexists; split; [reflexivity| |reflexivity|];
    (split; [reflexivity|]);
    cbn [reg_a update_zero_and_negative_flags set_status_bit set_status set_reg_a].
  - rewrite rol_byte by exact Ha; split; [reflexivity|].
    rewrite ror_byte by exact Hl; exact Hrl.
  - rewrite ror_byte by exact Ha; split; [reflexivity|].
    rewrite rol_byte by exact Hr; exact Hlr.
Qed.

Lemma rotate_accumulator_inverse_witness :
  0 <= reg_a adc_demo < 256 /\
  (exists s1 s2, rol_accumulator adc_demo = Some s1 /\ ror_accumulator s1 = Some s2 /\
     reg_a s1 = rotl8 (reg_a adc_demo) /\ reg_a s2 = reg_a adc_demo) /\
  (exists s1 s2, ror_accumulator adc_demo = Some s1 /\ rol_accumulator s1 = Some s2 /\
     reg_a s1 = rotr8 (reg_a adc_demo) /\ reg_a s2 = reg_a adc_demo).
Proof.
  split; [simpl; lia|].
  apply rotate_accumulator_inverse; simpl; lia.
Defined.

(** ** Loading a program *)

(** [Nes::new] (lib.rs): a fresh CPU, [load] of the ROM, then [reset]. *)
Definition nes_new (rom : list Z) : option CPU :=
  s1 <- load new rom ;;
  reset s1.

(** [Nes::new] panics exactly when the ROM does not fit between 0x0600 and
    the end of the 0xFFFF-byte memory, i.e. when it is longer than 63999
    bytes. *)
Theorem nes_new_panics_iff (rom : list Z) :
  nes_new rom = None <-> 63999 < Z.of_nat (length rom).
Proof.
  unfold nes_new, load.
  destruct (0x0600 + Z.of_nat (length rom) <=? MEMORY_LEN) eqn:E.
  - apply Z.leb_le in E; unfold MEMORY_LEN in E; split; [|lia].
    cbn [bind]; unfold mem_write_u16, mem_write, reset, mem_read_u16, mem_read,
      checked_add16.
    repeat (cbn [bind];
            match goal with
            | |- context [if ?c then _ else _] =>
                let v := eval vm_compute in c in
                progress replace c with v by reflexivity
            end).
    cbn [bind]; discriminate.
  - apply Z.leb_gt in E; unfold MEMORY_LEN in E; cbn [bind]; split; [|reflexivity].
    intros _; lia.
Qed.

(** A ROM of at most 0xFFFC - 0x0600 bytes is copied to 0x0600 onwards,
    the reset vector points there, and the CPU starts at 0x0600 with the
    stack pointer at 0xFD and zeroed registers and status. *)
Theorem nes_new_spec (rom : list Z) :
  Z.of_nat (length rom) <= 0xFFFC - 0x0600 ->
  exists s, nes_new rom = Some s /\
    pc s = 0x0600 /\ sp s = STACK_RESET /\ reg_a s = 0 /\
    index_reg_x s = 0 /\ index_reg_y s = 0 /\ status s = 0 /\
    (forall i, (i < length rom)%nat -> memory s (0x0600 + Z.of_nat i) = nth i rom 0) /\
    memory s 0xFFFC = 0x00 /\ memory s 0xFFFD = 0x06.
Proof.
  intros Hlen; unfold nes_new, load.
  replace (0x0600 + Z.of_nat (length rom) <=? MEMORY_LEN) with true
    by (symmetry; apply Z.leb_le; unfold MEMORY_LEN; lia).
  exists (mkCPU 0x0600 0 STACK_RESET 0 0 0
            (fun a => if a =? 0xFFFD then 0x06 else if a =? 0xFFFC then 0x00 else
                      if (0x0600 <=? a) && (a <? 0x0600 + Z.of_nat (length rom))
                      then nth (Z.to_nat (a - 0x0600)) rom 0 else 0)).
  split; [reflexivity|].
  cbn [pc sp reg_a index_reg_x index_reg_y status memory]; repeat split.
  intros i Hi.
  replace (0x0600 + Z.of_nat i =? 0xFFFD) with false by (symmetry; apply Z.eqb_neq; lia).
  replace (0x0600 + Z.of_nat i =? 0xFFFC) with false by (symmetry; apply Z.eqb_neq; lia).
  replace (0x0600 <=? 0x0600 + Z.of_nat i) with true by (symmetry; apply Z.leb_le; lia).
  replace (0x0600 + Z.of_nat i <? 0x0600 + Z.of_nat (length rom)) with true
    by (symmetry; apply Z.ltb_lt; lia).
  cbn [andb]; f_equal.
  replace (0x0600 + Z.of_nat i - 0x0600) with (Z.of_nat i) by lia.
  apply Nat2Z.id.
Qed.

Lemma nes_new_spec_witness :
  Z.of_nat (length [0xA9; 0x05; 0x00]) <= 0xFFFC - 0x0600 /\
  exists s, nes_new [0xA9; 0x05; 0x00] = Some s /\
    pc s = 0x0600 /\ sp s = STACK_RESET /\ reg_a s = 0 /\
    index_reg_x s = 0 /\ index_reg_y s = 0 /\ status s = 0 /\
    (forall i, (i < length [0xA9; 0x05; 0x00])%nat ->
       memory s (0x0600 + Z.of_nat i) = nth i [0xA9; 0x05; 0x00] 0) /\
    memory s 0xFFFC = 0x00 /\ memory s 0xFFFD = 0x06.
Proof.
  split; [simpl; lia|].
  apply nes_new_spec; simpl; lia.
Defined.

(** ** Comparisons *)

Lemma byte_bit7 (x : Z) : 0 <= x < 256 -> Z.testbit x 7 = (128 <=? x).
Proof.
  intros Hx; apply Bool.eqb_prop.
  refine (check_range_ok (fun x => Bool.eqb (Z.testbit x 7) (128 <=? x)) 256 0 _ x Hx).
  vm_compute; reflexivity.
Qed.

(** CMP, CPX and CPY change nothing but the status register, and in it
    only Zero, Carry and Negative: Zero when the register equals the operand,
    Carry when it is not below it (no borrow), Negative when the 8-bit
    difference [reg - operand] has bit 7 set. *)
Theorem compare_with_flags (s s' : CPU) (m : AddressingMode) (reg addr v : Z) :
  get_operand_address s m = Some addr -> mem_read s addr = Some v ->
  0 <= reg < 256 -> 0 <= v < 256 ->
  compare_with s m reg = Some s' ->
  s' = set_status s (status s') /\
  flag s' STATUS_BIT_Z = (reg =? v) /\
  flag s' STATUS_BIT_C = (v <=? reg) /\
  flag s' STATUS_BIT_N = (128 <=? (reg - v) mod 256) /\
  (forall j, 0 <= j -> j <> STATUS_BIT_Z -> j <> STATUS_BIT_C -> j <> STATUS_BIT_N ->
     flag s' j = flag s j).
Proof.
  intros Ha Hv Hr Hvb H; unfold compare_with in H; rewrite Ha in H; cbn [bind] in H.
  rewrite Hv in H; cbn [bind] in H; injection H as <-.
  split; [reflexivity|]; unfold flag, set_status_bit;
    cbn [status set_status].
  unfold STATUS_BIT_Z, STATUS_BIT_C, STATUS_BIT_N, MSB.
  repeat split.
  - rewrite get_set_bit_neq, get_set_bit_neq, get_set_bit_eq by lia; reflexivity.
  - rewrite get_set_bit_neq, get_set_bit_eq by lia; apply Z.geb_leb.
  - rewrite get_set_bit_eq by lia; unfold get_bit, wrapping_sub8.
    apply byte_bit7, Z.mod_pos_bound; lia.
  - intros j Hj H1 H2 H3.
    rewrite !get_set_bit_neq by lia; reflexivity.
Qed.

Definition cmp_demo : CPU :=
  mkCPU 0x0601 0x10 0xFD 0 0 0xC4 (fun a => if a =? 0x0601 then 0x20 else 0).

Lemma compare_with_flags_witness :
  exists s', compare_with cmp_demo Immediate (reg_a cmp_demo) = Some s' /\
  s' = set_status cmp_demo (status s') /\
  flag s' STATUS_BIT_Z = (reg_a cmp_demo =? 0x20) /\
  flag s' STATUS_BIT_C = (0x20 <=? reg_a cmp_demo) /\
  flag s' STATUS_BIT_N = (128 <=? (reg_a cmp_demo - 0x20) mod 256) /\
  (forall j, 0 <= j -> j <> STATUS_BIT_Z -> j <> STATUS_BIT_C -> j <> STATUS_BIT_N ->
     flag s' j = flag cmp_demo j).
Proof.
  eexists; split; [reflexivity|].
  apply (compare_with_flags cmp_demo _ Immediate (reg_a cmp_demo) 0x0601 0x20);
    first [reflexivity | simpl; lia].
Defined.

(** ** Flag instructions *)

(** CLC, CLD, CLI, SEC, SED and SEI: opcode, status bit, new value. *)
Definition flag_table : list (Z * Z * bool) :=
  [(0x18, STATUS_BIT_C, false); (0xd8, STATUS_BIT_D, false);
   (0x58, STATUS_BIT_I, false); (0x38, STATUS_BIT_C, true);
   (0xf8, STATUS_BIT_D, true); (0x78, STATUS_BIT_I, true)].

Lemma flag_table_dispatch (k : nat) (c i : Z) (b : bool) (op : OpCode) (s : CPU) :
  nth_error flag_table k = Some (c, i, b) ->
  dispatch c op s = Next (set_status_bit s i b).
Proof.
  intros Hk.
  do 6 (destruct k as [|k]; [injection Hk as <- <- <-; reflexivity|]).
  destruct k; discriminate Hk.
Qed.

Lemma flag_table_op (k : nat) (c i : Z) (b : bool) :
  nth_error flag_table k = Some (c, i, b) ->
  exists op, OPCODES_MAP c = Some op /\ len op = 1 /\ 0 <= i < 8.
Proof.
  intros Hk.
  do 6 (destruct k as [|k];
        [injection Hk as <- <- <-; eexists; split; [reflexivity|];
         split; [reflexivity|]; unfold STATUS_BIT_C, STATUS_BIT_D, STATUS_BIT_I; lia|]).
  destruct k; discriminate Hk.
Qed.

(** One step over CLC, CLD, CLI, SEC, SED or SEI sets its status bit to the
    instruction's value, leaves every other bit, register and memory cell
    as it was, and moves to the next byte. *)
Theorem step_flag_op {H : Type} (callback : H -> CPU -> H * CPU * io_result)
    (h h1 : H) (s s1 : CPU) (k : nat) (c i : Z) (b : bool) :
  nth_error flag_table k = Some (c, i, b) ->
  callback h s = (h1, s1, IoOk) ->
  pc s1 + 1 <= 65535 -> mem_read s1 (pc s1) = Some c ->
  exists s', step callback h s = Continue h1 s' /\
    s' = set_pc (set_status s1 (status s')) (pc s1 + 1) /\
    flag s' i = b /\
    (forall j, 0 <= j -> j <> i -> flag s' j = flag s1 j).
Proof.
  intros Hk Hcb Hp Hc.
  destruct (flag_table_op k c i b Hk) as (op & Hop & Hlen & Hi).
  unfold step; rewrite Hcb, Hc; unfold checked_add16 at 1.
  replace (pc s1 + 1 <=? 65535) with true by (symmetry; apply Z.leb_le; lia).
  rewrite Hop, (flag_table_dispatch k c i b op _ Hk).
  cbn [pc set_pc set_status_bit set_status]; rewrite Z.eqb_refl.
  unfold advance, checked_add16; rewrite Hlen.
  change (pc (set_status_bit (set_pc s1 (pc s1 + 1)) i b)) with (pc s1 + 1).
  replace (pc s1 + 1 + (1 - 1) <=? 65535) with true by (symmetry; apply Z.leb_le; lia).
  cbn [bind]; eexists; split; [reflexivity|].
  unfold flag; cbn [status set_pc set_status]; split; [|split].
  - replace (pc s1 + 1 + (1 - 1)) with (pc s1 + 1) by lia; reflexivity.
  - apply get_set_bit_eq; lia.
  - intros j Hj Hne; apply get_set_bit_neq; lia.
Qed.

Definition sec_demo : CPU :=
  mkCPU 0x0600 0 0xFD 0 0 0x80 (fun a => if a =? 0x0600 then 0x38 else 0).

Lemma step_flag_op_witness :
  exists s', step noop_callback tt sec_demo = Continue tt s' /\
    s' = set_pc (set_status sec_demo (status s')) (pc sec_demo + 1) /\
    flag s' STATUS_BIT_C = true /\
    (forall j, 0 <= j -> j <> STATUS_BIT_C -> flag s' j = flag sec_demo j).
Proof.
  apply (step_flag_op noop_callback tt tt sec_demo sec_demo 3 0x38 STATUS_BIT_C true);
    first [reflexivity | simpl; lia].
Defined.

(** ** Increment and decrement *)

Lemma wrap_add_sub (x : Z) : 0 <= x < 256 -> wrapping_sub8 (wrapping_add8 x 1) 1 = x.
Proof.
  intros Hx; unfold wrapping_add8, wrapping_sub8.
  rewrite Zminus_mod_idemp_l; replace (x + 1 - 1) with x by lia.
  now apply Z.mod_small.
Qed.

Lemma wrap_add_zero (x : Z) : 0 <= x < 256 -> (wrapping_add8 x 1 =? 0) = (x =? 255).
Proof.
  intros Hx; unfold wrapping_add8.
  destruct (Z.eq_dec x 255) as [->|Hne]; [reflexivity|].
  rewrite Z.mod_small by lia.
  replace (x =? 255) with false by (symmetry; apply Z.eqb_neq; lia).
  apply Z.eqb_neq; lia.
Qed.

(** INX and INY wrap 0xFF round to 0x00 and set Zero exactly then; DEX and
    DEY undo them, for every register value. *)
Theorem inc_dec_index_roundtrip (s : CPU) :
  0 <= index_reg_x s < 256 -> 0 <= index_reg_y s < 256 ->
  (exists s1 s2, inx s = Some s1 /\ dex s1 = Some s2 /\
     index_reg_x s1 = (index_reg_x s + 1) mod 256 /\
     flag s1 STATUS_BIT_Z = (index_reg_x s =? 255) /\
     index_reg_x s2 = index_reg_x s) /\
  (exists s1 s2, iny s = Some s1 /\ dey s1 = Some s2 /\
     index_reg_y s1 = (index_reg_y s + 1) mod 256 /\
     flag s1 STATUS_BIT_Z = (index_reg_y s =? 255) /\
     index_reg_y s2 = index_reg_y s).
Proof.
  intros Hx Hy; split; do 2 eexists; split; [reflexivity| |reflexivity|];
    (split; [reflexivity|]);
    unfold flag; cbn [index_reg_x index_reg_y status update_zero_and_negative_flags
                      set_status_bit set_status set_index_reg_x set_index_reg_y];
    (split; [reflexivity|]);
    unfold STATUS_BIT_Z, STATUS_BIT_N;
    (split; [rewrite get_set_bit_neq, get_set_bit_eq by lia; apply wrap_add_zero; lia|]);
    apply wrap_add_sub; assumption.
Qed.

Lemma inc_dec_index_roundtrip_witness :
  0 <= index_reg_x reset_demo < 256 /\ 0 <= index_reg_y reset_demo < 256 /\
  (exists s1 s2, inx reset_demo = Some s1 /\ dex s1 = Some s2 /\
     index_reg_x s1 = (index_reg_x reset_demo + 1) mod 256 /\
     flag s1 STATUS_BIT_Z = (index_reg_x reset_demo =? 255) /\
     index_reg_x s2 = index_reg_x reset_demo) /\
  (exists s1 s2, iny reset_demo = Some s1 /\ dey s1 = Some s2 /\
     index_reg_y s1 = (index_reg_y reset_demo + 1) mod 256 /\
     flag s1 STATUS_BIT_Z = (index_reg_y reset_demo =? 255) /\
     index_reg_y s2 = index_reg_y reset_demo).
Proof.
  split; [simpl; lia|]; split; [simpl; lia|].
  apply inc_dec_index_roundtrip; simpl; lia.
Defined.

(** ** JMP indirect *)

Lemma page_start (ptr : Z) :
  0 <= ptr < 65536 -> Z.land ptr 0x00FF = 0x00FF -> Z.land ptr 0xFF00 = ptr - 0xFF.
Proof.
  intros Hp Hl; apply Z.eqb_eq.
  pose (P := fun ptr => implb (Z.land ptr 0x00FF =? 0x00FF) (Z.land ptr 0xFF00 =? ptr - 0xFF)).
  assert (H : P ptr = true).
  { refine (check_range_ok P 65536 0 _ ptr Hp); vm_compute; reflexivity. }
  unfold P in H; rewrite Hl, Z.eqb_refl in H; exact H.
Qed.

Lemma mem_read_u16_bytes (s : CPU) (a : Z) :
  0 <= a -> a + 1 < MEMORY_LEN -> 0 <= memory s a < 256 ->
  mem_read_u16 s a = Some (memory s a + 256 * memory s (a + 1)).
Proof.
  intros Ha Ha1 Hb; unfold mem_read_u16, mem_read, checked_add16.
  replace (a <? MEMORY_LEN) with true by (symmetry; apply Z.ltb_lt; lia).
  cbn [bind].
  replace (a + 1 <=? 65535) with true
    by (symmetry; apply Z.leb_le; unfold MEMORY_LEN in Ha1; lia).
  cbn [bind].
  replace (a + 1 <? MEMORY_LEN) with true by (symmetry; apply Z.ltb_lt; lia).
  cbn [bind]; f_equal; apply word_of_bytes, Hb.
Qed.

(** JMP indirect takes the target's low byte at the pointer and its high
    byte at the next address, except when the pointer is the last byte of
    a page (low byte 0xFF): the high byte then comes from the first byte of
    the same page, not of the next one. *)
Theorem jmp_indirect_target (s : CPU) (ptr : Z) :
  mem_read_u16 s (pc s) = Some ptr -> 0 <= ptr < 0xFFFE ->
  0 <= memory s ptr < 256 ->
  jmp_indirect s =
    Some (set_pc s (memory s ptr + 256 *
      memory s (if Z.land ptr 0x00FF =? 0x00FF then ptr - 0xFF else ptr + 1))).
Proof.
  intros Hptr Hr Hb; unfold jmp_indirect; rewrite Hptr; cbn [bind].
  destruct (Z.land ptr 0x00FF =? 0x00FF) eqn:Ep.
  - apply Z.eqb_eq in Ep; rewrite (page_start ptr ltac:(lia) Ep).
    unfold mem_read.
    replace (ptr <? MEMORY_LEN) with true
      by (symmetry; apply Z.ltb_lt; unfold MEMORY_LEN; lia).
    cbn [bind].
    replace (ptr - 0xFF <? MEMORY_LEN) with true
      by (symmetry; apply Z.ltb_lt; unfold MEMORY_LEN; lia).
    cbn [bind]; do 2 f_equal; apply word_of_bytes, Hb.
  - rewrite (mem_read_u16_bytes s ptr) by (unfold MEMORY_LEN; lia).
    reflexivity.
Qed.

Definition jmp_demo : CPU :=
  mkCPU 0x0601 0 0xFD 0 0 0
    (fun a => if a =? 0x0601 then 0xFF else if a =? 0x0602 then 0x02
              else if a =? 0x02FF then 0x34 else if a =? 0x0200 then 0x12
              else if a =? 0x0300 then 0x99 else 0).

Lemma jmp_indirect_target_witness :
  jmp_indirect jmp_demo =
    Some (set_pc jmp_demo (memory jmp_demo 0x02FF + 256 *
      memory jmp_demo (if Z.land 0x02FF 0x00FF =? 0x00FF then 0x02FF - 0xFF else 0x02FF + 1))).
Proof.
  apply (jmp_indirect_target jmp_demo 0x02FF); first [reflexivity | simpl; lia].
Defined.

(** ** Store then load *)

Lemma mem_read_u16_ext (s s' : CPU) (a : Z) :
  memory s' a = memory s a -> memory s' (a + 1) = memory s (a + 1) ->
  mem_read_u16 s' a = mem_read_u16 s a.
Proof.
  intros H1 H2; unfold mem_read_u16, mem_read.
  destruct (a <? MEMORY_LEN); cbn [bind]; [|reflexivity].
  destruct (checked_add16 a 1) as [a1|] eqn:E; cbn [bind]; [|reflexivity].
  unfold checked_add16 in E; destruct (_ <=? _); [|discriminate].
  injection E as <-; destruct (a + 1 <? MEMORY_LEN); cbn [bind]; [|reflexivity].
  rewrite H1, H2; reflexivity.
Qed.

(** STA absolute followed by LDA absolute of the same operand reads back the
    accumulator, as long as the store does not overwrite the operand bytes
    themselves. *)
Theorem sta_lda_absolute (s s1 : CPU) (addr : Z) :
  mem_read_u16 s (pc s) = Some addr -> addr <> pc s -> addr <> pc s + 1 ->
  sta s Absolute = Some s1 ->
  memory s1 addr = reg_a s /\
  exists s2, lda s1 Absolute = Some s2 /\ reg_a s2 = reg_a s /\ memory s2 = memory s1.
Proof.
  intros Ha Hn1 Hn2 H; unfold sta in H; cbn [get_operand_address] in H.
  rewrite Ha in H; cbn [bind] in H; unfold mem_write in H.
  destruct (addr <? MEMORY_LEN) eqn:Eb; [|discriminate].
  injection H as <-; cbn [memory set_memory]; rewrite Z.eqb_refl; split; [reflexivity|].
  unfold lda; cbn [get_operand_address].
  rewrite (mem_read_u16_ext s); cbn [memory set_memory pc].
  - rewrite Ha; cbn [bind]; unfold mem_read; rewrite Eb; cbn [bind memory set_memory].
    rewrite Z.eqb_refl; eexists; split; [reflexivity|]; split; reflexivity.
  - replace (pc s =? addr) with false by (symmetry; apply Z.eqb_neq; congruence).
    reflexivity.
  - replace (pc s + 1 =? addr) with false by (symmetry; apply Z.eqb_neq; congruence).
    reflexivity.
Qed.

Definition sta_demo : CPU :=
  mkCPU 0x0601 0x42 0xFD 0 0 0
    (fun a => if a =? 0x0601 then 0x00 else if a =? 0x0602 then 0x02 else 0).

Lemma sta_lda_absolute_witness :
  exists s1, sta sta_demo Absolute = Some s1 /\
  memory s1 0x0200 = reg_a sta_demo /\
  exists s2, lda s1 Absolute = Some s2 /\ reg_a s2 = reg_a sta_demo /\ memory s2 = memory s1.
Proof.
  eexists; split; [reflexivity|].
  apply (sta_lda_absolute sta_demo _ 0x0200); first [reflexivity | discriminate].
Defined.

(** ** Shifts of the accumulator *)

(** ASL doubles the accumulator modulo 256 and moves its old bit 7 into
    Carry; LSR halves it, moves its old bit 0 into Carry and always clears
    Negative. *)
Theorem shift_accumulator (s : CPU) :
  0 <= reg_a s < 256 ->
  (exists s1, asl_accumulator s = Some s1 /\
     reg_a s1 = (2 * reg_a s) mod 256 /\
     flag s1 STATUS_BIT_C = (128 <=? reg_a s) /\
     flag s1 STATUS_BIT_Z = ((2 * reg_a s) mod 256 =? 0)) /\
  (exists s1, lsr_accumulator s = Some s1 /\
     reg_a s1 = reg_a s / 2 /\
     flag s1 STATUS_BIT_C = Z.odd (reg_a s) /\
     flag s1 STATUS_BIT_N = false).
Proof.
  intros Ha.
  assert (Hshl : shl8 (reg_a s) = (2 * reg_a s) mod 256).
  { unfold shl8; rewrite land_0xFF, Z.shiftl_mul_pow2 by lia; f_equal; lia. }
  assert (Hshr : shr8 (reg_a s) = reg_a s / 2).
  { unfold shr8; rewrite Z.shiftr_div_pow2 by lia; reflexivity. }
  split; eexists; split; try reflexivity; unfold flag.
  - cbn [reg_a update_zero_and_negative_flags set_status_bit set_status set_reg_a].
    rewrite !zn_status by (unfold STATUS_BIT_C, STATUS_BIT_Z; lia).
    cbn [status set_reg_a set_status_bit set_status].
    rewrite Hshl; split; [reflexivity|]; split.
    + unfold STATUS_BIT_C; cbn -[get_bit set_bit].
      rewrite get_set_bit_eq by lia; apply byte_bit7, Ha.
    + reflexivity.
  - cbn [reg_a update_zero_and_negative_flags set_status_bit set_status set_reg_a].
    rewrite !zn_status by (unfold STATUS_BIT_C, STATUS_BIT_N; lia).
    cbn [status set_reg_a set_status_bit set_status].
    rewrite Hshr; split; [reflexivity|]; split.
    + unfold STATUS_BIT_C; cbn -[get_bit set_bit].
      rewrite get_set_bit_eq by lia; apply Z.bit0_odd.
    + change (STATUS_BIT_N =? STATUS_BIT_N) with true; cbv iota.
      unfold get_bit, NEGATIVE_BIT; rewrite byte_bit7.
      * apply Z.leb_gt; apply Z.div_lt_upper_bound; lia.
      * split; [apply Z.div_pos|apply Z.div_lt_upper_bound]; lia.
Qed.

Lemma shift_accumulator_witness :
  0 <= reg_a adc_demo < 256 /\
  (exists s1, asl_accumulator adc_demo = Some s1 /\
     reg_a s1 = (2 * reg_a adc_demo) mod 256 /\
     flag s1 STATUS_BIT_C = (128 <=? reg_a adc_demo) /\
     flag s1 STATUS_BIT_Z = ((2 * reg_a adc_demo) mod 256 =? 0)) /\
  (exists s1, lsr_accumulator adc_demo = Some s1 /\
     reg_a s1 = reg_a adc_demo / 2 /\
     flag s1 STATUS_BIT_C = Z.odd (reg_a adc_demo) /\
     flag s1 STATUS_BIT_N = false).
Proof.
  split; [simpl; lia|].
  apply shift_accumulator; simpl; lia.
Defined.

(** ** Zero page and stack page *)

(** The zero-page addressing modes, indexed or not, always give an address
    inside page 0: the index addition wraps at 8 bits. *)
Theorem zero_page_modes_stay_in_page0 (s : CPU) (m : AddressingMode) (a : Z) :
  cpu_wf s -> In m [ZeroPage; ZeroPage_X; ZeroPage_Y] ->
  get_operand_address s m = Some a -> 0 <= a < 256.
Proof.
  intros Hs Hm H.
  destruct Hm as [<-|[<-|[<-|[]]]]; cbn [get_operand_address] in H.
  - apply (mem_read_byte s Hs (pc s) a H).
  - destruct (mem_read s (pc s)); cbn [bind] in H; [|discriminate].
    injection H as <-; apply Z.mod_pos_bound; lia.
  - destruct (mem_read s (pc s)); cbn [bind] in H; [|discriminate].
    injection H as <-; apply Z.mod_pos_bound; lia.
Qed.

Lemma zero_page_modes_stay_in_page0_witness :
  cpu_wf cmp_demo /\ In ZeroPage_X [ZeroPage; ZeroPage_X; ZeroPage_Y] /\
  get_operand_address cmp_demo ZeroPage_X = Some 0x20 /\ 0 <= 0x20 < 256.
Proof.
  assert (Hw : cpu_wf cmp_demo).
  { unfold cpu_wf, is_byte; simpl; repeat split; try lia;
      destruct (_ =? 0x0601); lia. }
  split; [exact Hw|]; split; [simpl; tauto|]; split; [reflexivity|].
  apply (zero_page_modes_stay_in_page0 cmp_demo ZeroPage_X 0x20 Hw);
    [simpl; tauto | reflexivity].
Defined.

Lemma stack_push_page1 (s s' : CPU) (d : Z) :
  0 <= sp s < 256 -> stack_push s d = Some s' ->
  0 <= sp s' < 256 /\
  forall a, a < 0x100 \/ 0x1FF < a -> memory s' a = memory s a.
Proof.
  intros Hsp H; unfold stack_push, mem_write in H.
  destruct (STACK_BASE + sp s <? MEMORY_LEN); cbn [bind] in H; [|discriminate].
  injection H as <-; split.
  - apply Z.mod_pos_bound; lia.
  - intros a Ha.
    transitivity (if a =? STACK_BASE + sp s then d else memory s a); [reflexivity|].
    replace (a =? STACK_BASE + sp s) with false
      by (symmetry; apply Z.eqb_neq; unfold STACK_BASE; lia).
    reflexivity.
Qed.

(** Pushing a byte or a word never writes outside page 1
    (0x0100-0x01FF): the stack pointer wraps at 8 bits instead of leaving
    the page. *)
Theorem stack_writes_stay_in_page1 (s s' : CPU) (d : Z) :
  0 <= sp s < 256 ->
  stack_push s d = Some s' \/ stack_push_u16 s d = Some s' ->
  forall a, a < 0x100 \/ 0x1FF < a -> memory s' a = memory s a.
Proof.
  intros Hsp [H|H] a Ha.
  - apply (stack_push_page1 s s' d Hsp H), Ha.
  - unfold stack_push_u16 in H.
    destruct (stack_push s (Z.shiftr (Z.land d 0xFF00) 8)) as [s1|] eqn:E1;
      cbn [bind] in H; [|discriminate].
    destruct (stack_push_page1 s s1 _ Hsp E1) as [Hsp1 Hm1].
    destruct (stack_push_page1 s1 s' _ Hsp1 H) as [_ Hm2].
    rewrite Hm2, Hm1 by exact Ha; reflexivity.
Qed.

Lemma stack_writes_stay_in_page1_witness :
  0 <= sp stack_demo < 256 /\
  exists s', stack_push_u16 stack_demo 0xBEEF = Some s' /\
  (forall a, a < 0x100 \/ 0x1FF < a -> memory s' a = memory stack_demo a).
Proof.
  split; [simpl; lia|].
  eexists; split; [reflexivity|].
  apply (stack_writes_stay_in_page1 stack_demo _ 0xBEEF); [simpl; lia|].
  right; reflexivity.
Defined.
